(** * prosemirror-autopairs: character taxonomy, adjacency policy and
      pair-edit handlers, embedded from the TypeScript sources.

    The repository carries two generations of the library:
    - [Chars]  : [src/lib/chars.ts], [config.ts], [keymap.ts], [autopairs.ts];
    - [Pairs]  : [packages/prosemirror-autopairs/src/lib/pairs.ts] and
                 [autopairs.ts] of the same package.
    [utils.ts] is the same in both and is embedded once. *)

From Stdlib Require Import String Ascii List Bool ZArith Lia DecimalString.
Import ListNotations.
Open Scope string_scope.
Open Scope Z_scope.

(* ================================================================== *)
(** * A fragment of JavaScript *)
(* ================================================================== *)

Module JS.

(** A string is a sequence of UTF-16 code units.  The embedding keeps to
    the code units below 256 and writes each as one [ascii], so that
    [String.length] is [.length] and indexing is by code unit.

    Values a parameter of type [unknown] may hold.  [builtin n] stands for
    the function object found under the name [n] on [Object.prototype]. *)
Inductive value : Type :=
| undefined
| null
| boolean (b : bool)
| number (n : Z)
| str (s : string)
| builtin (name : string).

(** [typeof v === 'string'] *)
Definition isString (v : value) : bool :=
  match v with str _ => true | _ => false end.

(** [a === b] *)
Definition strict_eq (a b : value) : bool :=
  match a, b with
  | undefined, undefined => true
  | null, null => true
  | boolean x, boolean y => Bool.eqb x y
  | number x, number y => Z.eqb x y
  | str x, str y => String.eqb x y
  | builtin x, builtin y => String.eqb x y
  | _, _ => false
  end.

(** [!!v] *)
Definition truthy (v : value) : bool :=
  match v with
  | undefined | null => false
  | boolean b => b
  | number n => negb (Z.eqb n 0)
  | str s => negb (String.eqb s EmptyString)
  | builtin _ => true
  end.

(** Truthiness of a string: only the empty string is falsy. *)
Definition truthy_string (s : string) : bool :=
  negb (String.eqb s EmptyString).

(** [String(v)], as string concatenation, template literals and property
    keys apply it; numbers are the integers, printed in decimal. *)
Definition to_string (v : value) : string :=
  match v with
  | undefined => "undefined"
  | null => "null"
  | boolean true => "true"
  | boolean false => "false"
  | number n => NilZero.string_of_int (Z.to_int n)
  | str s => s
  | builtin n => "function " ++ n ++ "() { [native code] }"
  end.

(** [a + b] when the left operand is a string. *)
Definition concat (a : string) (b : value) : string := a ++ to_string b.

(** [arr.includes(v)] on an array of strings. *)
Definition includes (arr : list string) (v : value) : bool :=
  existsb (fun x => strict_eq (str x) v) arr.

(** [s[0]] *)
Definition first_char (s : string) : value :=
  match s with
  | EmptyString => undefined
  | String a _ => str (String a EmptyString)
  end.

(** [s[s.length - 1]] and [s.at(-1)] *)
Fixpoint last_char (s : string) : value :=
  match s with
  | EmptyString => undefined
  | String a EmptyString => str (String a EmptyString)
  | String _ rest => last_char rest
  end.

(** [a ?? b] for a string-or-undefined left operand. *)
Definition nullish (a : value) (b : string) : string :=
  match a with
  | undefined | null => b
  | _ => to_string a
  end.

(** [s.startsWith(p)] *)
Definition startsWith (s p : string) : bool := String.prefix p s.

(** The class [\w] of a regular expression without flags. *)
Definition is_word_char (a : ascii) : bool :=
  let n := N_of_ascii a in
  ((48 <=? n) && (n <=? 57) ||
   (65 <=? n) && (n <=? 90) ||
   (97 <=? n) && (n <=? 122) ||
   (n =? 95))%N.

(** [/\w/.test(s)]: some character of [s] is a word character. *)
Fixpoint test_w (s : string) : bool :=
  match s with
  | EmptyString => false
  | String a rest => is_word_char a || test_w rest
  end.

(** Objects with keys of type [K], as the list of their own enumerable
    entries in insertion order ([Object.entries]). *)
Section Objects.
Context {K V : Type} (eqb : K -> K -> bool).

Fixpoint get (o : list (K * V)) (k : K) : option V :=
  match o with
  | [] => None
  | (k', v) :: rest => if eqb k' k then Some v else get rest k
  end.

(** [{...o, [k]: v}]: an existing key keeps its place. *)
Fixpoint set (o : list (K * V)) (k : K) (v : V) : list (K * V) :=
  match o with
  | [] => [(k, v)]
  | (k', v') :: rest =>
      if eqb k' k then (k', v) :: rest else (k', v') :: set rest k v
  end.

(** [{...a, ...b}] *)
Definition spread (a b : list (K * V)) : list (K * V) :=
  fold_left (fun acc kv => set acc (fst kv) (snd kv)) b a.

Definition keys (o : list (K * V)) : list K := map fst o.
Definition values (o : list (K * V)) : list V := map snd o.

(** The entries of an object: no key occurs twice. *)
Fixpoint unique_keys (o : list (K * V)) : bool :=
  match o with
  | [] => true
  | (k, _) :: rest => negb (existsb (eqb k) (keys rest)) && unique_keys rest
  end.
End Objects.

(** Property names every object literal inherits from [Object.prototype]. *)
Definition Object_prototype : list string :=
  [ "constructor"; "__defineGetter__"; "__defineSetter__"; "hasOwnProperty";
    "__lookupGetter__"; "__lookupSetter__"; "isPrototypeOf";
    "propertyIsEnumerable"; "toString"; "valueOf"; "__proto__";
    "toLocaleString" ].

Definition inherited (k : string) : bool :=
  existsb (String.eqb k) Object_prototype.

(** [k in o] for an object literal [o] with string keys. *)
Definition has_property {V} (o : list (string * V)) (k : string) : bool :=
  match get String.eqb o k with
  | Some _ => true
  | None => inherited k
  end.

(** Exceptions. *)
Inductive result (A : Type) : Type :=
| Ok (a : A)
| Throw (message : string).
Arguments Ok {A} a.
Arguments Throw {A} message.

End JS.

(** The double quote character, as a one-character string. *)
Definition dquote : string := String "034"%char EmptyString.

(* ================================================================== *)
(** * The host editor, as far as the handlers observe and drive it *)
(* ================================================================== *)

(** A document node next to a position: a text node with its text, or any
    other node ([isText] false, [text] undefined). *)
Inductive Node : Type :=
| TextNode (text : string)
| OtherNode.

(** [EditorState]: the selection with its boundaries, the nodes directly
    before and after [$from], and [doc.textBetween]. *)
Record EditorState : Type := mkState {
  sel_from : Z;
  sel_to : Z;
  nodeBefore : option Node;
  nodeAfter : option Node;
  textBetween : Z -> Z -> string
}.

(** [selection.empty] *)
Definition sel_empty (state : EditorState) : bool :=
  sel_from state =? sel_to state.

(** The calls a handler makes on a transaction, in order.
    [setSelection p] is [tr.setSelection(Selection.near(tr.doc.resolve(p)))]. *)
Inductive TrOp : Type :=
| replaceWith (from to : Z) (text : string)
| insertText (text : string) (from : Z)
| delete (from to : Z)
| setSelection (pos : Z).

Definition Transaction : Type := list TrOp.

(** A transaction changes the document when it holds a step. *)
Definition docChanged (tr : Transaction) : bool :=
  existsb (fun op => match op with setSelection _ => false | _ => true end) tr.

(** A command returns its boolean and dispatches at most one transaction. *)
Definition Outcome : Type := (bool * option Transaction)%type.

Definition handled (o : Outcome) : bool := fst o.
Definition dispatched (o : Outcome) : option Transaction := snd o.

(** [Command]: the state, and whether a [dispatch] function was passed. *)
Definition Command : Type := EditorState -> bool -> Outcome.

Definition unhandled : Outcome := (false, None).

(** [if (dispatch) { ...; dispatch(tr) } return true] *)
Definition dispatching (dispatch : bool) (tr : Transaction) : Outcome :=
  (true, if dispatch then Some tr else None).


(* ================================================================== *)
(** * Enumerations shared by [chars.ts] and [pairs.ts] *)
(* ================================================================== *)

Module Quote.
Definition Double : string := dquote.
Definition Single : string := "'".
End Quote.

Module OpeningBracket.
Definition Round : string := "(".
Definition Square : string := "[".
Definition Curly : string := "{".
Definition Angle : string := "<".
End OpeningBracket.

Module ClosingBracket.
Definition Round : string := ")".
Definition Square : string := "]".
Definition Curly : string := "}".
Definition Angle : string := ">".
End ClosingBracket.

(** [enum AutopairGroup], in declaration order. *)
Inductive AutopairGroup : Type :=
| RoundBrackets
| AngleBrackets
| CurlyBrackets
| SquareBrackets
| DoubleQuotes
| SingleQuotes.

(** The string each member of the enum stands for. *)
Definition AutopairGroup_value (g : AutopairGroup) : string :=
  match g with
  | RoundBrackets => "roundBrackets"
  | AngleBrackets => "angleBrackets"
  | CurlyBrackets => "curlyBrackets"
  | SquareBrackets => "squareBrackets"
  | DoubleQuotes => "doubleQuotes"
  | SingleQuotes => "singleQuotes"
  end.

(** [Object.values(AutopairGroup)] *)
Definition AutopairGroup_values : list string :=
  map AutopairGroup_value
    [RoundBrackets; AngleBrackets; CurlyBrackets; SquareBrackets;
     DoubleQuotes; SingleQuotes].

Definition AutopairGroup_eqb (a b : AutopairGroup) : bool :=
  String.eqb (AutopairGroup_value a) (AutopairGroup_value b).

(** [AutopairsOptions = Partial<Record<AutopairGroup, boolean>>]: the
    entries of the object the caller passes, in insertion order. *)
Definition AutopairsOptions : Type := list (AutopairGroup * bool).

(** [defaultConfig], the same literal in [config.ts] and [autopairs.ts]. *)
Definition defaultConfig : AutopairsOptions :=
  [ (AngleBrackets, true); (CurlyBrackets, true); (RoundBrackets, true);
    (SquareBrackets, true); (DoubleQuotes, true); (SingleQuotes, true) ].

(** The group tables [AUTOPAIR_CHAR_GROUPS] and [AUTOPAIR_GROUPS] are the
    same object literal, keyed by the enum's strings. *)
Definition group_table : list (string * list string) :=
  [ (AutopairGroup_value AngleBrackets,
      [OpeningBracket.Angle; ClosingBracket.Angle]);
    (AutopairGroup_value CurlyBrackets,
      [OpeningBracket.Curly; ClosingBracket.Curly]);
    (AutopairGroup_value RoundBrackets,
      [OpeningBracket.Round; ClosingBracket.Round]);
    (AutopairGroup_value SquareBrackets,
      [OpeningBracket.Square; ClosingBracket.Square]);
    (AutopairGroup_value DoubleQuotes, [Quote.Double]);
    (AutopairGroup_value SingleQuotes, [Quote.Single]) ].

(** [table[group]] for a key of the enum type. *)
Definition group_chars (g : AutopairGroup) : list string :=
  match JS.get String.eqb group_table (AutopairGroup_value g) with
  | Some chars => chars
  | None => []
  end.

(** The pair mappings [AUTOPAIR_CHAR_MAP] and [OPEN_CLOSE_MAPPING] are the
    same object literal. *)
Definition pair_table : list (string * string) :=
  [ (OpeningBracket.Angle, ClosingBracket.Angle);
    (OpeningBracket.Curly, ClosingBracket.Curly);
    (OpeningBracket.Round, ClosingBracket.Round);
    (OpeningBracket.Square, ClosingBracket.Square);
    (Quote.Double, Quote.Double);
    (Quote.Single, Quote.Single) ].

(** [table[key]] for a key of any type: an own entry, else what the object
    literal inherits, else [undefined]. *)
Definition pair_lookup (key : JS.value) : JS.value :=
  let k := JS.to_string key in
  match JS.get String.eqb pair_table k with
  | Some closing => JS.str closing
  | None => if JS.inherited k then JS.builtin k else JS.undefined
  end.

(** [isQuote] of [pairs.ts], [isQuoteChar] of [chars.ts]. *)
Definition isQuote (char : JS.value) : bool :=
  JS.strict_eq char (JS.str Quote.Double)
  || JS.strict_eq char (JS.str Quote.Single).

(* ================================================================== *)
(** * [utils.ts] *)
(* ================================================================== *)

Definition isTextNode (node : option Node) : bool :=
  match node with
  | Some (TextNode _) => true
  | _ => false
  end.

Definition isAdjacentToWordChar (charBefore charAfter : string) : bool :=
  JS.test_w charBefore || JS.test_w charAfter.

Definition shouldSkipClosing (state : EditorState) (char : string) : bool :=
  if negb (sel_empty state) then false
  else
    match nodeAfter state with
    | Some (TextNode text) => JS.startsWith text char
    | _ => false
    end.

(** [isTextNode(nodeBefore) && nodeBefore.text
       ? (nodeBefore.text.at(-1) ?? '') : ''] *)
Definition charBefore_of (node : option Node) : string :=
  match node with
  | Some (TextNode text) =>
      if JS.truthy_string text
      then JS.nullish (JS.last_char text) EmptyString
      else EmptyString
  | _ => EmptyString
  end.

(** [isTextNode(nodeAfter) && nodeAfter.text ? nodeAfter.text[0] : ''] *)
Definition charAfter_of (node : option Node) : string :=
  match node with
  | Some (TextNode text) =>
      if JS.truthy_string text
      then JS.to_string (JS.first_char text)
      else EmptyString
  | _ => EmptyString
  end.

Definition shouldAutoClose (state : EditorState) (openChar : JS.value) : bool :=
  if negb (sel_empty state) then true
  else if isQuote openChar then
    let charBefore := charBefore_of (nodeBefore state) in
    let charAfter := charAfter_of (nodeAfter state) in
    negb (isAdjacentToWordChar charBefore charAfter)
  else true.

(* ================================================================== *)
(** * [packages/prosemirror-autopairs/src/lib]: [pairs.ts], [autopairs.ts] *)
(* ================================================================== *)

Module Pairs.

Definition BACKSPACE : string := "Backspace".

Definition OPEN_CLOSE_MAPPING : list (string * string) := pair_table.

Definition ALL_OPENING_CHARS : list string := JS.keys OPEN_CLOSE_MAPPING.

Definition ALL_CLOSING_CHARS : list string := JS.values OPEN_CLOSE_MAPPING.

Definition ALL_AUTOPAIR_CHARS : list string :=
  ALL_OPENING_CHARS ++ ALL_CLOSING_CHARS.

Definition AUTOPAIR_GROUPS : AutopairGroup -> list string := group_chars.

Definition ALL_CHAR_GROUPS : list string := AutopairGroup_values.

Definition isAutopairGroup (group : JS.value) : bool :=
  JS.isString group && JS.includes ALL_CHAR_GROUPS group.

Definition isOpeningCharacter (char : JS.value) : bool :=
  JS.isString char && JS.includes ALL_OPENING_CHARS char.

Definition isClosingCharacter (char : JS.value) : bool :=
  JS.isString char && JS.includes ALL_CLOSING_CHARS char.

Definition isMatchingCharacter (char : JS.value) : bool :=
  JS.isString char && JS.includes ALL_AUTOPAIR_CHARS char.

Definition getClosingCharacter (char : JS.value) : JS.value :=
  pair_lookup char.

Definition isMatchingPair (charBefore charAfter : JS.value) : bool :=
  let openingMatch := isOpeningCharacter charBefore in
  let charAfterMatches := isClosingCharacter charAfter in
  let isPair := openingMatch && charAfterMatches in
  isPair && JS.strict_eq (getClosingCharacter charBefore) charAfter.

(** [getEnabledAutopairChars]: entries of the merged configuration, the
    truthy ones kept, each mapped to its group's characters, flattened. *)
Definition getEnabledAutopairChars (options : AutopairsOptions) : list string :=
  List.concat
    (map (fun entry => AUTOPAIR_GROUPS (fst entry))
       (filter (fun entry => negb (negb (snd entry)))
          (JS.spread AutopairGroup_eqb defaultConfig options))).

Definition createAutopairInputHandler (char : JS.value) : Command :=
  fun state dispatch =>
    if negb (isMatchingCharacter char) then unhandled
    else
      let from := sel_from state in
      let to := sel_to state in
      let isOpeningChar := isOpeningCharacter char in
      let isClosingChar := isClosingCharacter char in
      let closingChar := getClosingCharacter char in
      if negb (sel_empty state) then
        if negb isOpeningChar || negb isClosingChar then unhandled
        else
          let selectedText := textBetween state from to in
          let wrappedText :=
            JS.concat (JS.concat (JS.to_string char) (JS.str selectedText))
              closingChar in
          dispatching dispatch
            [ replaceWith from to wrappedText;
              setSelection (from + Z.of_nat (String.length wrappedText)) ]
      else if isClosingChar && shouldSkipClosing state (JS.to_string char) then
        dispatching dispatch [ setSelection (from + 1) ]
      else if isOpeningChar && shouldAutoClose state char then
        let insertedText := JS.concat (JS.to_string char) closingChar in
        dispatching dispatch
          [ insertText insertedText from; setSelection (from + 1) ]
      else unhandled.

Definition createBackspaceInputHandler : Command :=
  fun state dispatch =>
    if negb (sel_empty state) then unhandled
    else
      let cursor_pos := sel_from state in
      match nodeBefore state, nodeAfter state with
      | Some (TextNode beforeText), Some (TextNode afterText) =>
          let charBefore := JS.last_char beforeText in
          let charAfter := JS.first_char afterText in
          if isMatchingPair charBefore charAfter then
            dispatching dispatch [ delete (cursor_pos - 1) (cursor_pos + 1) ]
          else unhandled
      | _, _ => unhandled
      end.

(** [buildKeyBindings]: one entry per enabled character, then the
    [Backspace] entry. *)
Definition buildKeyBindings (options : AutopairsOptions)
  : list (string * Command) :=
  let chars := getEnabledAutopairChars options in
  let mergeAutopairCharHandler :=
    fun (bindings : list (string * Command)) (char : string) =>
      JS.set String.eqb bindings char
        (createAutopairInputHandler (JS.str char)) in
  JS.set String.eqb
    (JS.spread String.eqb [] (fold_left mergeAutopairCharHandler chars []))
    BACKSPACE createBackspaceInputHandler.

End Pairs.

(* ================================================================== *)
(** * [src/lib]: [chars.ts], [config.ts], [keymap.ts], [autopairs.ts] *)
(* ================================================================== *)

Module Chars.

Definition AUTOPAIR_CHAR_GROUPS : list (string * list string) := group_table.

(** What [AUTOPAIR_CHAR_GROUPS[group]] evaluates to for a string key. *)
Inductive GroupEntry : Type :=
| CharList (chars : list string)
| Inherited (member : JS.value).

Definition isCharGroup (group : JS.value) : bool :=
  JS.isString group
  && JS.has_property AUTOPAIR_CHAR_GROUPS (JS.to_string group).

Definition resolveCharGroup (group : JS.value) : JS.result GroupEntry :=
  if negb (isCharGroup group) then
    JS.Throw ("Invalid auto-pair char group: " ++ JS.to_string group)
  else
    let key := JS.to_string group in
    match JS.get String.eqb AUTOPAIR_CHAR_GROUPS key with
    | Some chars => JS.Ok (CharList chars)
    | None => JS.Ok (Inherited (JS.builtin key))
    end.

Definition isQuoteChar : JS.value -> bool := isQuote.

Definition AUTOPAIR_CHAR_MAP : list (string * string) := pair_table.

Definition ALL_AUTOPAIR_CHARS : list string :=
  JS.keys AUTOPAIR_CHAR_MAP ++ JS.values AUTOPAIR_CHAR_MAP.

Definition isOpeningChar (char : JS.value) : bool :=
  JS.isString char && JS.includes ALL_AUTOPAIR_CHARS char.

Definition isClosingChar (char : JS.value) : bool :=
  JS.isString char && JS.includes ALL_AUTOPAIR_CHARS char.

Definition isAutopairChar (char : JS.value) : bool :=
  JS.isString char && JS.includes ALL_AUTOPAIR_CHARS char.

Definition findClosingMatch (char : JS.value) : JS.value :=
  pair_lookup char.

Definition isMatchingPair (charBefore charAfter : JS.value) : bool :=
  let openingMatch := isOpeningChar charBefore in
  let charAfterMatches := isClosingChar charAfter in
  let isPair := openingMatch && charAfterMatches in
  isPair && JS.strict_eq (findClosingMatch charBefore) charAfter.

(** [entries.find(([, closing]) => closing === closingChar)?.[0]] *)
Definition findOpeningMatch (closingChar : JS.value) : JS.value :=
  match
    find (fun entry => JS.strict_eq (JS.str (snd entry)) closingChar)
      AUTOPAIR_CHAR_MAP
  with
  | Some entry => JS.str (fst entry)
  | None => JS.undefined
  end.

(** [config.ts] *)
Definition resolveCharsToHandle (options : AutopairsOptions) : list string :=
  let entries := options in
  if (List.length entries =? 0)%nat then ALL_AUTOPAIR_CHARS
  else
    List.concat
      (map (fun entry => group_chars (fst entry))
         (filter (fun entry => negb (negb (snd entry))) entries)).

(** [keymap.ts] *)
Definition buildAutopairKeyBindings
    (mapping : list (string * (JS.value -> Command)))
  : list (string * Command) :=
  fold_left
    (fun record entry =>
       JS.set String.eqb record (fst entry) (snd entry (JS.str (fst entry))))
    mapping [].

(** [autopairs.ts] *)
Definition createAutopairCommandForChar (char : JS.value) : Command :=
  fun state dispatch =>
    if negb (isAutopairChar char) then unhandled
    else
      let from := sel_from state in
      let to := sel_to state in
      if negb (sel_empty state) then
        if negb (isOpeningChar char) then unhandled
        else
          let closingChar := findClosingMatch char in
          if negb (JS.truthy closingChar) then unhandled
          else
            let selectedText := textBetween state from to in
            let wrappedText :=
              JS.concat (JS.concat (JS.to_string char) (JS.str selectedText))
                closingChar in
            dispatching dispatch
              [ replaceWith from to wrappedText;
                setSelection (from + Z.of_nat (String.length wrappedText)) ]
      else if isClosingChar char
              && shouldSkipClosing state (JS.to_string char) then
        dispatching dispatch [ setSelection (from + 1) ]
      else if isOpeningChar char && shouldAutoClose state char then
        let closingChar := findClosingMatch char in
        let insertedText := JS.concat (JS.to_string char) closingChar in
        dispatching dispatch
          [ insertText insertedText from; setSelection (from + 1) ]
      else unhandled.

Definition createBackspaceInputCommand : Command :=
  fun state dispatch =>
    if negb (sel_empty state) then unhandled
    else
      let cursor_pos := sel_from state in
      match nodeBefore state, nodeAfter state with
      | Some (TextNode beforeText), Some (TextNode afterText) =>
          let charBefore := JS.last_char beforeText in
          let charAfter := JS.first_char afterText in
          if isMatchingPair charBefore charAfter then
            dispatching dispatch [ delete (cursor_pos - 1) (cursor_pos + 1) ]
          else unhandled
      | _, _ => unhandled
      end.

(** The constructor of [AutopairsPlugin]: the key bindings it registers. *)
Definition AutopairsPlugin_bindings (options : AutopairsOptions)
  : list (string * Command) :=
  let autopairCharBindings :=
    fold_left
      (fun mapping char =>
         JS.set String.eqb mapping char createAutopairCommandForChar)
      (resolveCharsToHandle options) [] in
  let keyboardKeyBindings :=
    [ ("Backspace", fun _ : JS.value => createBackspaceInputCommand) ] in
  buildAutopairKeyBindings
    (JS.spread String.eqb
       (JS.spread String.eqb [] autopairCharBindings) keyboardKeyBindings).

End Chars.


(* ================================================================== *)
(** * A one-paragraph document as host *)
(* ================================================================== *)

(** A document holding a single paragraph of plain text.  Position 0 is
    before the paragraph, position [1 + i] is before the [i]-th character. *)
Module Paragraph.

Record doc : Type := mkDoc {
  text : string;
  anchor : Z;
  head : Z
}.

Definition offset (pos : Z) : nat := Z.to_nat (pos - 1).

Definition slice (s : string) (a b : Z) : string :=
  substring (offset a) (offset b - offset a) s.

Definition before (s : string) (pos : Z) : string :=
  substring 0 (offset pos) s.

Definition after (s : string) (pos : Z) : string :=
  substring (offset pos) (String.length s - offset pos) s.

Definition node_of (s : string) : option Node :=
  match s with
  | EmptyString => None
  | _ => Some (TextNode s)
  end.

(** The editor state of a document: [$from.nodeBefore] and
    [$from.nodeAfter] are the parts of the text node on either side. *)
Definition state (d : doc) : EditorState :=
  let from := Z.min (anchor d) (head d) in
  let to := Z.max (anchor d) (head d) in
  {| sel_from := from;
     sel_to := to;
     nodeBefore := node_of (before (text d) from);
     nodeAfter := node_of (after (text d) from);
     textBetween := slice (text d) |}.

(** Where a position lands when [from, to) is replaced by [size]
    characters (a step map with the default bias). *)
Definition map_pos (from to size pos : Z) : Z :=
  if pos <? from then pos
  else if to <? pos then pos - (to - from) + size
  else
    let side :=
      if to - from =? 0 then 1 else if pos =? from then -1 else 1 in
    from + (if side <? 0 then 0 else size).

Definition replace (d : doc) (from to : Z) (s : string) : doc :=
  let size := Z.of_nat (String.length s) in
  {| text := before (text d) from ++ s ++ after (text d) to;
     anchor := map_pos from to size (anchor d);
     head := map_pos from to size (head d) |}.

Definition apply_op (d : doc) (op : TrOp) : doc :=
  match op with
  | replaceWith from to s => replace d from to s
  | insertText s from => replace d from from s
  | delete from to => replace d from to EmptyString
  | setSelection pos => {| text := text d; anchor := pos; head := pos |}
  end.

(** [state.apply(tr)] *)
Definition apply (d : doc) (tr : Transaction) : doc :=
  fold_left apply_op tr d.

(** A key press: the command runs with a [dispatch] that applies the
    transaction; an unhandled key leaves the document to the host. *)
Definition run (cmd : Command) (d : doc) : bool * doc :=
  match cmd (state d) true with
  | (result, Some tr) => (result, apply d tr)
  | (result, None) => (result, d)
  end.

End Paragraph.


(* ================================================================== *)
(** * Definitions the statements below are phrased with *)
(* ================================================================== *)

(** The six opening and the six closing characters of the data model. *)
Definition opening_characters : list string :=
  ["("; "["; "{"; "<"; dquote; "'"].

Definition closing_characters : list string :=
  [")"; "]"; "}"; ">"; dquote; "'"].

(** A predicate on values holds exactly for the strings of a list. *)
Definition holds_exactly_for (p : JS.value -> bool) (chars : list string)
  : Prop :=
  forall v, p v = true <-> exists s, v = JS.str s /\ In s chars.

(** The six fixed group names. *)
Definition is_group_name (v : JS.value) : Prop :=
  exists g, v = JS.str (AutopairGroup_value g).

(** Group resolution fails exactly off the six group names. *)
Definition throws_exactly_off_group_names
    (resolve : JS.value -> JS.result Chars.GroupEntry) : Prop :=
  forall v,
    (is_group_name v -> exists chars, resolve v = JS.Ok (Chars.CharList chars))
    /\ (~ is_group_name v -> exists message, resolve v = JS.Throw message).

(** The flag a configuration gives a group, if it names the group. *)
Definition flag (options : AutopairsOptions) (g : AutopairGroup)
  : option bool :=
  JS.get AutopairGroup_eqb options g.

(** The resolved flag: the explicit value, else the default [true]. *)
Definition resolved_flag (options : AutopairsOptions) (g : AutopairGroup)
  : bool :=
  match flag options g with
  | Some enabled => enabled
  | None => true
  end.

(** The keys of [defaultConfig], in their order. *)
Definition default_order : list AutopairGroup :=
  [AngleBrackets; CurlyBrackets; RoundBrackets; SquareBrackets;
   DoubleQuotes; SingleQuotes].

(** Absent groups count as enabled: the resolved characters are those of
    the groups whose flag is [true] or missing. *)
Definition absent_groups_enabled
    (resolve : AutopairsOptions -> list string) (options : AutopairsOptions)
  : Prop :=
  forall c,
    In c (resolve options) <->
    exists g, resolved_flag options g = true /\ In c (group_chars g).

(** Absent groups count as disabled: the resolved characters are those of
    the groups whose flag is explicitly [true]. *)
Definition listed_groups_only
    (resolve : AutopairsOptions -> list string) (options : AutopairsOptions)
  : Prop :=
  forall c,
    In c (resolve options) <->
    exists g, flag options g = Some true /\ In c (group_chars g).

(** The configuration merged over a set of defaults, group by group. *)
Fixpoint merged (f : AutopairGroup -> bool) (options : AutopairsOptions)
    (g : AutopairGroup) : bool :=
  match options with
  | [] => f g
  | (k, v) :: rest =>
      merged (fun g' => if AutopairGroup_eqb k g' then v else f g') rest g
  end.

(** First and last character of a text, if it has one. *)
Definition first_ascii (s : string) : option ascii :=
  match s with
  | EmptyString => None
  | String a _ => Some a
  end.

Fixpoint last_ascii (s : string) : option ascii :=
  match s with
  | EmptyString => None
  | String a EmptyString => Some a
  | String _ rest => last_ascii rest
  end.

(** The character immediately before and immediately after the cursor:
    absent at a boundary of the content and next to a node that is not
    plain text. *)
Definition char_before (state : EditorState) : option ascii :=
  match nodeBefore state with
  | Some (TextNode text) => last_ascii text
  | _ => None
  end.

Definition char_after (state : EditorState) : option ascii :=
  match nodeAfter state with
  | Some (TextNode text) => first_ascii text
  | _ => None
  end.

(** A neighbour is a word character; an absent neighbour is not. *)
Definition is_word (neighbour : option ascii) : bool :=
  match neighbour with
  | Some a => JS.is_word_char a
  | None => false
  end.

Definition char_string (a : ascii) : string := String a EmptyString.

(** [a] opens and [b] closes one pair of the Pair Mapping. *)
Definition pair_of_mapping (a b : ascii) : bool :=
  existsb
    (fun entry =>
       String.eqb (fst entry) (char_string a)
       && String.eqb (snd entry) (char_string b))
    pair_table.

(** The cursor is empty, both neighbours are text nodes, and the
    characters next to the cursor form a pair of the Pair Mapping. *)
Definition between_matching_pair (state : EditorState) : bool :=
  sel_empty state
  && isTextNode (nodeBefore state) && isTextNode (nodeAfter state)
  && match char_before state, char_after state with
     | Some a, Some b => pair_of_mapping a b
     | _, _ => false
     end.

(** The character immediately after the cursor is the string [c]. *)
Definition next_char_is (state : EditorState) (c : string) : bool :=
  match char_after state with
  | Some a => String.eqb (char_string a) c
  | None => false
  end.

(** The skip-over check applies: empty cursor, a closing character typed,
    and the next character is that character. *)
Definition skip_applies (state : EditorState) (char : JS.value) : bool :=
  sel_empty state && Pairs.isClosingCharacter char
  && next_char_is state (JS.to_string char).

(** The auto-close check applies: empty cursor, an opening character typed,
    and the adjacency policy permits. *)
Definition autoclose_applies (state : EditorState) (char : JS.value) : bool :=
  sel_empty state && Pairs.isOpeningCharacter char
  && shouldAutoClose state char.

(** The auto-close edit: [char + closingFor(char)] inserted at the cursor,
    the cursor put between the two characters. *)
Definition autoclose_edit (state : EditorState) (char : JS.value)
  : Transaction :=
  [ insertText
      (JS.concat (JS.to_string char) (Pairs.getClosingCharacter char))
      (sel_from state);
    setSelection (sel_from state + 1) ].

(** The wrap edit: the selected range replaced by
    [char + selectedText + closing], the cursor put after it. *)
Definition wrap_edit (state : EditorState) (opening closing : string)
  : Transaction :=
  let wrappedText :=
    opening ++ textBetween state (sel_from state) (sel_to state) ++ closing in
  [ replaceWith (sel_from state) (sel_to state) wrappedText;
    setSelection (sel_from state + Z.of_nat (String.length wrappedText)) ].

(** Auto-close fires whenever its own guard holds. *)
Definition autoclose_whenever_permitted
    (state : EditorState) (char : JS.value) : Prop :=
  autoclose_applies state char = true ->
  Pairs.createAutopairInputHandler char state true
  = (true, Some (autoclose_edit state char)).

(** The five checks of the character handler. *)
Inductive Check : Type :=
| RejectUnknown
| Wrap
| SkipOver
| AutoClose
| NoAction.

Definition guard (k : Check) (state : EditorState) (char : JS.value) : bool :=
  match k with
  | RejectUnknown => negb (Pairs.isMatchingCharacter char)
  | Wrap => negb (sel_empty state)
  | SkipOver => skip_applies state char
  | AutoClose => autoclose_applies state char
  | NoAction =>
      negb (negb (Pairs.isMatchingCharacter char)
            || negb (sel_empty state)
            || skip_applies state char
            || autoclose_applies state char)
  end.

Definition checks_in_order : list Check :=
  [RejectUnknown; Wrap; SkipOver; AutoClose; NoAction].

(** The first check, in the stated order, whose guard holds. *)
Definition first_check (state : EditorState) (char : JS.value) : Check :=
  match find (fun k => guard k state char) checks_in_order with
  | Some k => k
  | None => NoAction
  end.

(** At most one guard holds. *)
Definition mutually_exclusive (state : EditorState) (char : JS.value)
  : Prop :=
  forall k1 k2,
    guard k1 state char = true -> guard k2 state char = true -> k1 = k2.

(** What the handler has done when a given check decided. *)
Definition decided_by (k : Check) (state : EditorState) (char : JS.value)
    (outcome : Outcome) : Prop :=
  match k with
  | RejectUnknown | NoAction => outcome = unhandled
  | Wrap =>
      outcome = unhandled
      \/ exists closing,
           outcome = (true, Some (wrap_edit state (JS.to_string char) closing))
  | SkipOver => outcome = (true, Some [ setSelection (sel_from state + 1) ])
  | AutoClose => outcome = (true, Some (autoclose_edit state char))
  end.

(** The keymap: the command bound to a key runs, an unbound key is left
    to the host. *)
Definition press (bindings : list (string * Command)) (key : string)
  : Command :=
  fun state dispatch =>
    match JS.get String.eqb bindings key with
    | Some command => command state dispatch
    | None => unhandled
    end.

Definition all_disabled : AutopairsOptions :=
  [ (AngleBrackets, false); (CurlyBrackets, false); (RoundBrackets, false);
    (SquareBrackets, false); (DoubleQuotes, false); (SingleQuotes, false) ].

(** The contract of a command: without a dispatch function it only
    answers, with the answer it gives when one is passed; with a dispatch
    function it answers [true] exactly when it dispatches a transaction. *)
Definition obeys_command_protocol (command : Command) : Prop :=
  forall state,
    dispatched (command state false) = None
    /\ handled (command state false) = handled (command state true)
    /\ (handled (command state true) = true
        <-> exists tr, dispatched (command state true) = Some tr).

(** Two configurations resolve every group to the same flag. *)
Definition same_resolved_flags (options1 options2 : AutopairsOptions) : bool :=
  forallb
    (fun g => Bool.eqb (resolved_flag options1 g) (resolved_flag options2 g))
    default_order.

(** The entry [buildAutopairKeyBindings] makes of an entry of its
    argument: the key, bound to what the factory returns for the key. *)
Definition bound_entry (entry : string * (JS.value -> Command))
  : string * Command :=
  (fst entry, snd entry (JS.str (fst entry))).

(* ================================================================== *)
(** * Character taxonomy *)
(* ================================================================== *)

Lemma includes_str (arr : list string) (s : string) :
  JS.includes arr (JS.str s) = true <-> In s arr.
Proof.
  unfold JS.includes. rewrite existsb_exists. simpl. split.
  - intros (x & Hin & He). apply String.eqb_eq in He. now subst.
  - intros Hin. exists s. split; [assumption | apply String.eqb_refl].
Qed.

Lemma includes_not_string (arr : list string) (v : JS.value) :
  JS.isString v = false -> JS.includes arr v = false.
Proof.
  intros Hv. unfold JS.includes.
  induction arr as [| x arr IH]; [reflexivity |].
  cbn [existsb]. rewrite IH.
  destruct v; try reflexivity; discriminate Hv.
Qed.

Lemma string_guard_exact (arr : list string) :
  holds_exactly_for (fun v => JS.isString v && JS.includes arr v) arr.
Proof.
  intros v. split.
  - intros H. apply andb_true_iff in H. destruct H as [Hs Hi].
    destruct v; try discriminate. exists s. split; [reflexivity |].
    now apply includes_str.
  - intros (s & -> & Hin). simpl. now apply includes_str.
Qed.

Lemma same_members_exact (p : JS.value -> bool) (xs ys : list string) :
  (forall s, In s xs <-> In s ys) ->
  holds_exactly_for p xs -> holds_exactly_for p ys.
Proof.
  intros Hxy Hp v. rewrite (Hp v). split; intros (s & Hv & Hin);
    exists s; (split; [assumption | now apply Hxy]).
Qed.

(** [pairs.ts]: the opening predicate holds exactly for the six opening
    characters and the closing predicate exactly for the six closing ones. *)
Lemma Pairs_opening_closing_exact :
  holds_exactly_for Pairs.isOpeningCharacter opening_characters
  /\ holds_exactly_for Pairs.isClosingCharacter closing_characters.
Proof.
  split.
  - apply (same_members_exact _ Pairs.ALL_OPENING_CHARS).
    + intros s. cbn. tauto.
    + apply string_guard_exact.
  - apply (same_members_exact _ Pairs.ALL_CLOSING_CHARS).
    + intros s. cbn. tauto.
    + apply string_guard_exact.
Qed.

Lemma Pairs_bracket_roles :
  Pairs.isOpeningCharacter (JS.str ")") = false
  /\ Pairs.isClosingCharacter (JS.str "(") = false
  /\ Pairs.isOpeningCharacter (JS.str dquote) = true
  /\ Pairs.isClosingCharacter (JS.str dquote) = true
  /\ Pairs.isOpeningCharacter (JS.str "'") = true
  /\ Pairs.isClosingCharacter (JS.str "'") = true.
Proof. repeat split; reflexivity. Qed.

(** C3, at the failing input.  In [chars.ts] both [isOpeningChar] and
    [isClosingChar] test membership in [ALL_AUTOPAIR_CHARS], the list of
    all twelve entries: the closing bracket [)] passes the opening
    predicate and the opening bracket [(] passes the closing predicate. *)
Theorem Chars_opening_predicate_accepts_closing_bracket :
  Chars.isOpeningChar (JS.str ")") = true
  /\ Chars.isClosingChar (JS.str "(") = true
  /\ ~ holds_exactly_for Chars.isOpeningChar opening_characters
  /\ ~ holds_exactly_for Chars.isClosingChar closing_characters.
Proof.
  split; [reflexivity |]. split; [reflexivity |]. split.
  - intros H. destruct (proj1 (H (JS.str ")")) eq_refl) as (s & Hs & Hin).
    injection Hs as <-. cbn in Hin.
    repeat (destruct Hin as [Hin | Hin]; [discriminate Hin |]). exact Hin.
  - intros H. destruct (proj1 (H (JS.str "(")) eq_refl) as (s & Hs & Hin).
    injection Hs as <-. cbn in Hin.
    repeat (destruct Hin as [Hin | Hin]; [discriminate Hin |]). exact Hin.
Qed.

(** Both predicates of [chars.ts] are the pair-character predicate. *)
Lemma Chars_opening_is_any_pair_char (v : JS.value) :
  Chars.isOpeningChar v = Chars.isAutopairChar v
  /\ Chars.isClosingChar v = Chars.isAutopairChar v.
Proof. split; reflexivity. Qed.

(* ================================================================== *)
(** * Group resolution *)
(* ================================================================== *)

Lemma resolveCharGroup_group (g : AutopairGroup) :
  Chars.resolveCharGroup (JS.str (AutopairGroup_value g))
  = JS.Ok (Chars.CharList (group_chars g)).
Proof. destruct g; reflexivity. Qed.

Lemma resolveCharGroup_roundBrackets :
  Chars.resolveCharGroup (JS.str "roundBrackets")
  = JS.Ok (Chars.CharList ["("; ")"]).
Proof. reflexivity. Qed.

Lemma resolveCharGroup_bogus :
  Chars.resolveCharGroup (JS.str "bogus")
  = JS.Throw "Invalid auto-pair char group: bogus".
Proof. reflexivity. Qed.

Lemma resolveCharGroup_not_string (v : JS.value) :
  JS.isString v = false ->
  Chars.resolveCharGroup v
  = JS.Throw ("Invalid auto-pair char group: " ++ JS.to_string v).
Proof.
  intros Hv. unfold Chars.resolveCharGroup, Chars.isCharGroup.
  now rewrite Hv.
Qed.

Lemma get_group_table (k : string) :
  JS.get String.eqb group_table k = None <->
  ~ In k AutopairGroup_values.
Proof.
  unfold group_table, AutopairGroup_values.
  cbn [JS.get map AutopairGroup_value In].
  repeat match goal with
  | |- context [String.eqb ?a k] =>
      destruct (String.eqb_spec a k) as [<- | ?]
  end; split; intros H; try discriminate H; try tauto;
  try (exfalso; apply H; tauto).
Qed.

(** A string is resolved without an error exactly when it is a key of the
    table or a name inherited from [Object.prototype]. *)
Lemma resolveCharGroup_throws_iff (s : string) :
  (exists message, Chars.resolveCharGroup (JS.str s) = JS.Throw message)
  <-> ~ In s AutopairGroup_values /\ JS.inherited s = false.
Proof.
  unfold Chars.resolveCharGroup, Chars.isCharGroup, JS.has_property,
    Chars.AUTOPAIR_CHAR_GROUPS.
  cbn [JS.isString JS.to_string andb].
  destruct (JS.get String.eqb group_table s) as [chars |] eqn:Hget.
  - cbn. split.
    + intros (m & Hm). discriminate Hm.
    + intros (Hn & _). apply get_group_table in Hn. congruence.
  - apply get_group_table in Hget.
    destruct (JS.inherited s) eqn:Hin; cbn.
    + split; [intros (m & Hm); discriminate Hm | intros (_ & Hf); discriminate].
    + split; [intros _; now split | intros _; eexists; reflexivity].
Qed.

(** C9, at the failing input.  [isCharGroup] tests [group in
    AUTOPAIR_CHAR_GROUPS], which also holds for every name the object
    literal inherits: [resolveCharGroup('toString')] raises no error although
    ['toString'] is none of the six group names, and what it returns is not
    a character list. *)
Theorem resolveCharGroup_inherited_name_not_rejected :
  ~ is_group_name (JS.str "toString")
  /\ Chars.isCharGroup (JS.str "toString") = true
  /\ Chars.resolveCharGroup (JS.str "toString")
     = JS.Ok (Chars.Inherited (JS.builtin "toString"))
  /\ ~ throws_exactly_off_group_names Chars.resolveCharGroup.
Proof.
  assert (Hn : ~ is_group_name (JS.str "toString")).
  { intros (g & Hg). destruct g; discriminate Hg. }
  split; [exact Hn |]. split; [reflexivity |]. split; [reflexivity |].
  intros H. destruct (proj2 (H (JS.str "toString")) Hn) as (m & Hm).
  discriminate Hm.
Qed.

(** [isAutopairGroup] of [pairs.ts] tests membership in the list of enum
    values and accepts the six names only. *)
Lemma isAutopairGroup_exact (v : JS.value) :
  Pairs.isAutopairGroup v = true <-> is_group_name v.
Proof.
  destruct (string_guard_exact Pairs.ALL_CHAR_GROUPS v) as [H1 H2].
  split.
  - intros H. destruct (H1 H) as (s & -> & Hin). cbn in Hin.
    repeat (destruct Hin as [<- | Hin]);
      [ exists RoundBrackets | exists AngleBrackets | exists CurlyBrackets
      | exists SquareBrackets | exists DoubleQuotes | exists SingleQuotes
      | destruct Hin ]; reflexivity.
  - intros (g & ->). apply H2. exists (AutopairGroup_value g).
    split; [reflexivity |]. destruct g; cbn; tauto.
Qed.

(* ================================================================== *)
(** * Active character set *)
(* ================================================================== *)

Lemma AutopairGroup_eqb_spec (a b : AutopairGroup) :
  reflect (a = b) (AutopairGroup_eqb a b).
Proof. destruct a, b; cbn; constructor; congruence. Qed.

Lemma get_absent (options : AutopairsOptions) (g : AutopairGroup) :
  existsb (AutopairGroup_eqb g) (JS.keys options) = false ->
  flag options g = None.
Proof.
  unfold flag. induction options as [| [k v] rest IH]; [reflexivity |].
  cbn [JS.keys map fst existsb JS.get]. intros H.
  apply orb_false_iff in H. destruct H as [Hk Hrest].
  destruct (AutopairGroup_eqb_spec k g) as [-> | _].
  - destruct (AutopairGroup_eqb_spec g g); [discriminate | congruence].
  - now apply IH.
Qed.

Lemma get_in (options : AutopairsOptions) g v :
  flag options g = Some v -> In (g, v) options.
Proof.
  unfold flag. induction options as [| [k b] rest IH]; [discriminate |].
  cbn [JS.get]. destruct (AutopairGroup_eqb_spec k g) as [-> | _].
  - intros [= ->]. now left.
  - intros H. right. now apply IH.
Qed.

Lemma in_get (options : AutopairsOptions) g v :
  JS.unique_keys AutopairGroup_eqb options = true ->
  In (g, v) options -> flag options g = Some v.
Proof.
  unfold flag. induction options as [| [k b] rest IH]; [intros _ [] |].
  cbn [JS.unique_keys JS.get]. intros Hu Hin.
  apply andb_true_iff in Hu. destruct Hu as [Hk Hu].
  apply negb_true_iff in Hk. destruct Hin as [[= -> ->] | Hin].
  - destruct (AutopairGroup_eqb_spec g g); [reflexivity | congruence].
  - destruct (AutopairGroup_eqb_spec k g) as [-> | _]; [| now apply IH].
    apply get_absent in Hk. unfold flag in Hk.
    rewrite (IH Hu Hin) in Hk. discriminate Hk.
Qed.

Lemma merged_flag f (options : AutopairsOptions) g :
  JS.unique_keys AutopairGroup_eqb options = true ->
  merged f options g
  = match flag options g with Some v => v | None => f g end.
Proof.
  revert f. induction options as [| [k v] rest IH]; intros f Hu;
    [reflexivity |].
  cbn [JS.unique_keys] in Hu. apply andb_true_iff in Hu.
  destruct Hu as [Hk Hu]. apply negb_true_iff in Hk.
  cbn [merged]. rewrite (IH _ Hu). unfold flag. cbn [JS.get].
  destruct (AutopairGroup_eqb_spec k g) as [-> | Hne].
  - apply get_absent in Hk. unfold flag in Hk. now rewrite Hk.
  - reflexivity.
Qed.

Lemma set_default_order (f : AutopairGroup -> bool) k v :
  JS.set AutopairGroup_eqb (map (fun g => (g, f g)) default_order) k v
  = map (fun g => (g, if AutopairGroup_eqb k g then v else f g))
      default_order.
Proof. destruct k; reflexivity. Qed.

Lemma spread_default_order (f : AutopairGroup -> bool)
    (options : AutopairsOptions) :
  JS.spread AutopairGroup_eqb (map (fun g => (g, f g)) default_order) options
  = map (fun g => (g, merged f options g)) default_order.
Proof.
  revert f. induction options as [| [k v] rest IH]; intros f;
    [reflexivity |].
  unfold JS.spread in *. cbn [fold_left fst snd].
  rewrite set_default_order. now rewrite IH.
Qed.

Lemma filter_map_entries (r : AutopairGroup -> bool) (l : list AutopairGroup) :
  map (fun entry : AutopairGroup * bool => group_chars (fst entry))
    (filter (fun entry => negb (negb (snd entry)))
       (map (fun g => (g, r g)) l))
  = map group_chars (filter r l).
Proof.
  induction l as [| g l IH]; [reflexivity |].
  cbn [map filter fst snd]. rewrite negb_involutive.
  destruct (r g); cbn [map fst]; now rewrite IH.
Qed.

(** [getEnabledAutopairChars] as a list: the groups in the order of
    [defaultConfig], those kept whose resolved flag is [true]. *)
Lemma getEnabledAutopairChars_eq (options : AutopairsOptions) :
  JS.unique_keys AutopairGroup_eqb options = true ->
  Pairs.getEnabledAutopairChars options
  = List.concat (map group_chars (filter (resolved_flag options) default_order)).
Proof.
  intros Hu. unfold Pairs.getEnabledAutopairChars, Pairs.AUTOPAIR_GROUPS.
  change defaultConfig with (map (fun g => (g, true)) default_order).
  rewrite spread_default_order, filter_map_entries.
  f_equal. f_equal. apply filter_ext. intros g.
  unfold resolved_flag. now apply merged_flag.
Qed.

Lemma in_default_order (g : AutopairGroup) : In g default_order.
Proof. destruct g; cbn; tauto. Qed.

Lemma getEnabledAutopairChars_absent_enabled (options : AutopairsOptions) :
  JS.unique_keys AutopairGroup_eqb options = true ->
  absent_groups_enabled Pairs.getEnabledAutopairChars options.
Proof.
  intros Hu c. rewrite (getEnabledAutopairChars_eq _ Hu), in_concat. split.
  - intros (chars & Hchars & Hc). apply in_map_iff in Hchars.
    destruct Hchars as (g & <- & Hg). apply filter_In in Hg.
    exists g. tauto.
  - intros (g & Hflag & Hc). exists (group_chars g). split; [| assumption].
    apply in_map. apply filter_In. split; [apply in_default_order | assumption].
Qed.

Lemma resolveCharsToHandle_empty :
  absent_groups_enabled Chars.resolveCharsToHandle [].
Proof.
  intros c. split.
  - cbn. intros H.
    repeat (destruct H as [<- | H]);
      [ exists AngleBrackets | exists CurlyBrackets | exists RoundBrackets
      | exists SquareBrackets | exists DoubleQuotes | exists SingleQuotes
      | exists AngleBrackets | exists CurlyBrackets | exists RoundBrackets
      | exists SquareBrackets | exists DoubleQuotes | exists SingleQuotes
      | destruct H ]; (split; [reflexivity | cbn; tauto]).
  - intros (g & _ & Hc). destruct g; cbn in Hc |- *; tauto.
Qed.

Lemma resolveCharsToHandle_listed (options : AutopairsOptions) :
  JS.unique_keys AutopairGroup_eqb options = true ->
  options <> [] ->
  listed_groups_only Chars.resolveCharsToHandle options.
Proof.
  intros Hu Hne c. unfold Chars.resolveCharsToHandle.
  destruct options as [| e rest] eqn:Ho; [congruence |].
  rewrite <- Ho in *. replace (length options =? 0)%nat with false
    by (rewrite Ho; reflexivity).
  rewrite in_concat. split.
  - intros (chars & Hchars & Hc). apply in_map_iff in Hchars.
    destruct Hchars as ([g b] & <- & Hg). apply filter_In in Hg.
    destruct Hg as [Hin Hb]. cbn [snd] in Hb.
    rewrite negb_involutive in Hb. subst b.
    exists g. split; [now apply in_get | exact Hc].
  - intros (g & Hflag & Hc). exists (group_chars g). split; [| assumption].
    apply in_map_iff. exists (g, true). split; [reflexivity |].
    apply filter_In. split; [now apply get_in | reflexivity].
Qed.

Lemma groups_disjoint (g1 g2 : AutopairGroup) (c : string) :
  In c (group_chars g1) -> In c (group_chars g2) -> g1 = g2.
Proof.
  destruct g1, g2; cbn; intros H1 H2; try reflexivity; exfalso;
    repeat (destruct H1 as [H1 | H1]; try contradiction); subst c;
    repeat (destruct H2 as [H2 | H2]; try contradiction); discriminate H2.
Qed.

(** The characters of a group resolved as disabled are left out. *)
Lemma getEnabledAutopairChars_omits (options : AutopairsOptions) g c :
  JS.unique_keys AutopairGroup_eqb options = true ->
  resolved_flag options g = false ->
  In c (group_chars g) ->
  ~ In c (Pairs.getEnabledAutopairChars options).
Proof.
  intros Hu Hflag Hc Hin.
  apply (getEnabledAutopairChars_absent_enabled _ Hu) in Hin.
  destruct Hin as (g' & Hflag' & Hc').
  rewrite (groups_disjoint _ _ _ Hc Hc') in Hflag. congruence.
Qed.

(** C1, as amended.  For a configuration object (no key twice):
    [getEnabledAutopairChars] merges the configuration over [defaultConfig]
    and so resolves a group that is absent as enabled;
    [resolveCharsToHandle] does so for the empty configuration only, and
    for a configuration naming at least one group returns the characters
    of the groups explicitly set to [true] and of no other group. *)
Theorem active_character_set (options : AutopairsOptions) :
  JS.unique_keys AutopairGroup_eqb options = true ->
  absent_groups_enabled Pairs.getEnabledAutopairChars options
  /\ (forall g c,
        flag options g = Some false -> In c (group_chars g) ->
        ~ In c (Pairs.getEnabledAutopairChars options))
  /\ (options = [] -> absent_groups_enabled Chars.resolveCharsToHandle options)
  /\ (options <> [] -> listed_groups_only Chars.resolveCharsToHandle options).
Proof.
  intros Hu. split; [now apply getEnabledAutopairChars_absent_enabled |].
  split; [| split].
  - intros g c Hflag. apply (getEnabledAutopairChars_omits _ _ _ Hu).
    unfold resolved_flag. now rewrite Hflag.
  - intros ->. apply resolveCharsToHandle_empty.
  - now apply resolveCharsToHandle_listed.
Qed.

Lemma active_character_set_witness :
  JS.unique_keys AutopairGroup_eqb
    [(AngleBrackets, true); (CurlyBrackets, false)] = true
  /\ absent_groups_enabled Pairs.getEnabledAutopairChars
       [(AngleBrackets, true); (CurlyBrackets, false)]
  /\ listed_groups_only Chars.resolveCharsToHandle
       [(AngleBrackets, true); (CurlyBrackets, false)].
Proof.
  split; [reflexivity |].
  destruct (active_character_set
              [(AngleBrackets, true); (CurlyBrackets, false)] eq_refl)
    as (HB & _ & _ & HA).
  split; [exact HB | apply HA; discriminate].
Defined.

(** C1 as stated fails for [resolveCharsToHandle]: a configuration naming
    only [angleBrackets: true] resolves to the two angle brackets, not to
    the characters of all six groups. *)
Lemma resolveCharsToHandle_absent_not_enabled :
  Chars.resolveCharsToHandle [(AngleBrackets, true)] = ["<"; ">"]
  /\ ~ absent_groups_enabled Chars.resolveCharsToHandle
         [(AngleBrackets, true)].
Proof.
  split; [reflexivity |]. intros H.
  assert (Hin : In "(" (Chars.resolveCharsToHandle [(AngleBrackets, true)])).
  { apply H. exists RoundBrackets. split; [reflexivity | cbn; tauto]. }
  cbn in Hin. destruct Hin as [Hin | [Hin | []]]; discriminate Hin.
Qed.

Lemma getEnabledAutopairChars_angle_only :
  Pairs.getEnabledAutopairChars [(AngleBrackets, true)]
  = ["<"; ">"; "{"; "}"; "("; ")"; "["; "]"; dquote; "'"].
Proof. reflexivity. Qed.

(* ================================================================== *)
(** * Adjacency policy *)
(* ================================================================== *)

Lemma last_char_last_ascii (text : string) :
  JS.last_char text
  = match last_ascii text with
    | Some a => JS.str (char_string a)
    | None => JS.undefined
    end.
Proof.
  induction text as [| a rest IH]; [reflexivity |].
  destruct rest as [| b rest]; [reflexivity |].
  exact IH.
Qed.

Lemma first_char_first_ascii (text : string) :
  JS.first_char text
  = match first_ascii text with
    | Some a => JS.str (char_string a)
    | None => JS.undefined
    end.
Proof. destruct text; reflexivity. Qed.

Lemma test_w_char (a : ascii) :
  JS.test_w (char_string a) = JS.is_word_char a.
Proof. cbn [char_string JS.test_w]. apply orb_false_r. Qed.

Lemma isAdjacentToWordChar_examples :
  isAdjacentToWordChar "a" "(" = true
  /\ isAdjacentToWordChar "1" "{" = true
  /\ isAdjacentToWordChar "_" "[" = true
  /\ isAdjacentToWordChar "(" "Z" = true
  /\ isAdjacentToWordChar "(" ")" = false
  /\ isAdjacentToWordChar " " " " = false
  /\ isAdjacentToWordChar EmptyString EmptyString = false
  /\ isAdjacentToWordChar "-" "+" = false.
Proof. repeat split; reflexivity. Qed.

Lemma charBefore_of_word (state : EditorState) :
  JS.test_w (charBefore_of (nodeBefore state)) = is_word (char_before state).
Proof.
  unfold charBefore_of, char_before.
  destruct (nodeBefore state) as [[text |] |]; try reflexivity.
  destruct text as [| a rest]; [reflexivity |].
  cbn [JS.truthy_string String.eqb negb].
  rewrite last_char_last_ascii.
  destruct (last_ascii (String a rest)) as [b |]; [| reflexivity].
  apply test_w_char.
Qed.

Lemma charAfter_of_word (state : EditorState) :
  JS.test_w (charAfter_of (nodeAfter state)) = is_word (char_after state).
Proof.
  unfold charAfter_of, char_after.
  destruct (nodeAfter state) as [[text |] |]; try reflexivity.
  destruct text as [| a rest]; [reflexivity |].
  apply test_w_char.
Qed.

Lemma shouldAutoClose_quote (state : EditorState) (q : JS.value) :
  sel_empty state = true ->
  isQuote q = true ->
  shouldAutoClose state q
  = negb (is_word (char_before state) || is_word (char_after state)).
Proof.
  intros He Hq. unfold shouldAutoClose, isAdjacentToWordChar.
  rewrite He, Hq. cbn [negb].
  now rewrite charBefore_of_word, charAfter_of_word.
Qed.

(** C5.  For a quote typed at an empty cursor, [shouldAutoClose] denies
    exactly when the character before or the character after the cursor is
    a word character; a neighbour that is absent (boundary of the content,
    or a node that is not plain text) is no word character, so with no
    neighbour on either side the quote is auto-closed. *)
Theorem quote_autoclose_denied_iff_word_neighbour
    (state : EditorState) (q : JS.value) :
  sel_empty state = true ->
  isQuote q = true ->
  (shouldAutoClose state q = false <->
   is_word (char_before state) = true \/ is_word (char_after state) = true)
  /\ (isTextNode (nodeBefore state) = false ->
      charBefore_of (nodeBefore state) = EmptyString
      /\ char_before state = None)
  /\ (isTextNode (nodeAfter state) = false ->
      charAfter_of (nodeAfter state) = EmptyString
      /\ char_after state = None)
  /\ (char_before state = None -> char_after state = None ->
      shouldAutoClose state q = true).
Proof.
  intros He Hq. rewrite (shouldAutoClose_quote _ _ He Hq).
  split; [| split; [| split]].
  - rewrite negb_false_iff. apply orb_true_iff.
  - unfold char_before.
    destruct (nodeBefore state) as [[text |] |]; try discriminate; now split.
  - unfold char_after.
    destruct (nodeAfter state) as [[text |] |]; try discriminate; now split.
  - now intros -> ->.
Qed.

Lemma quote_autoclose_denied_iff_word_neighbour_witness :
  shouldAutoClose (Paragraph.state (Paragraph.mkDoc "word" 5 5))
    (JS.str dquote) = false
  /\ shouldAutoClose (Paragraph.state (Paragraph.mkDoc EmptyString 1 1))
       (JS.str dquote) = true.
Proof.
  split.
  - apply (quote_autoclose_denied_iff_word_neighbour
             (Paragraph.state (Paragraph.mkDoc "word" 5 5)) (JS.str dquote));
      [reflexivity | reflexivity | left; reflexivity].
  - apply (quote_autoclose_denied_iff_word_neighbour
             (Paragraph.state (Paragraph.mkDoc EmptyString 1 1))
             (JS.str dquote)); reflexivity.
Defined.

Lemma quote_at_start_before_word_denied :
  shouldAutoClose (Paragraph.state (Paragraph.mkDoc "abc" 1 1))
    (JS.str "'") = false.
Proof. reflexivity. Qed.

Lemma quote_next_to_non_text_nodes_permitted :
  shouldAutoClose (mkState 3 3 (Some OtherNode) (Some OtherNode)
                     (fun _ _ => EmptyString)) (JS.str dquote) = true.
Proof. reflexivity. Qed.

Lemma bracket_autoclose_always (state : EditorState) (c : JS.value) :
  isQuote c = false -> shouldAutoClose state c = true.
Proof.
  intros Hq. unfold shouldAutoClose. rewrite Hq.
  now destruct (sel_empty state).
Qed.

Lemma startsWith_char (text : string) (a : ascii) :
  JS.startsWith text (char_string a)
  = match first_ascii text with
    | Some b => String.eqb (char_string b) (char_string a)
    | None => false
    end.
Proof.
  unfold JS.startsWith, char_string. destruct text as [| b rest];
    [reflexivity |].
  cbn [String.prefix first_ascii String.eqb].
  destruct (ascii_dec a b) as [-> | Hne].
  - rewrite Ascii.eqb_refl. now destruct rest.
  - destruct (Ascii.eqb_spec b a) as [-> | _]; [congruence | reflexivity].
Qed.

Lemma shouldSkipClosing_char (state : EditorState) (a : ascii) :
  shouldSkipClosing state (char_string a)
  = sel_empty state && next_char_is state (char_string a).
Proof.
  unfold shouldSkipClosing, next_char_is, char_after.
  destruct (sel_empty state); [| reflexivity]. cbn [negb andb].
  destruct (nodeAfter state) as [[text |] |]; try reflexivity.
  apply startsWith_char.
Qed.

(* ================================================================== *)
(** * Pair-edit engine *)
(* ================================================================== *)

Ltac unfold_tables :=
  unfold Pairs.isMatchingPair, Pairs.isOpeningCharacter,
    Pairs.isClosingCharacter, Pairs.isMatchingCharacter,
    Pairs.getClosingCharacter, pair_lookup, JS.includes,
    Pairs.ALL_AUTOPAIR_CHARS, Pairs.ALL_OPENING_CHARS,
    Pairs.ALL_CLOSING_CHARS, Pairs.OPEN_CLOSE_MAPPING, pair_table,
    OpeningBracket.Angle, OpeningBracket.Curly, OpeningBracket.Round,
    OpeningBracket.Square, ClosingBracket.Angle, ClosingBracket.Curly,
    ClosingBracket.Round, ClosingBracket.Square, Quote.Double, Quote.Single,
    dquote;
  cbn [existsb map fst snd JS.keys JS.values JS.get JS.isString
       JS.strict_eq JS.to_string andb orb app].

Ltac decide_string_tests :=
  repeat match goal with
  | |- context [String.eqb ?a ?b] =>
      destruct (String.eqb_spec a b);
      try discriminate; try congruence; subst
  end.

Lemma isMatchingPair_table (x y : string) :
  Pairs.isMatchingPair (JS.str x) (JS.str y)
  = existsb
      (fun entry => String.eqb (fst entry) x && String.eqb (snd entry) y)
      pair_table.
Proof.
  unfold_tables.
  decide_string_tests; cbn [andb orb JS.strict_eq]; try reflexivity;
    decide_string_tests; try reflexivity;
    destruct (JS.inherited x); reflexivity.
Qed.

Lemma isMatchingPair_undefined_l (v : JS.value) :
  Pairs.isMatchingPair JS.undefined v = false.
Proof. reflexivity. Qed.

Lemma isMatchingPair_undefined_r (v : JS.value) :
  Pairs.isMatchingPair v JS.undefined = false.
Proof.
  unfold Pairs.isMatchingPair.
  replace (Pairs.isClosingCharacter JS.undefined) with false by reflexivity.
  now rewrite andb_false_r.
Qed.

(** What the paired-delete handler of [autopairs.ts] does, case by case. *)
Lemma createBackspaceInputHandler_eq (state : EditorState) (dispatch : bool) :
  Pairs.createBackspaceInputHandler state dispatch
  = if between_matching_pair state
    then dispatching dispatch
           [ delete (sel_from state - 1) (sel_from state + 1) ]
    else unhandled.
Proof.
  unfold Pairs.createBackspaceInputHandler, between_matching_pair,
    char_before, char_after.
  destruct (sel_empty state); [| reflexivity].
  destruct (nodeBefore state) as [[beforeText |] |];
    destruct (nodeAfter state) as [[afterText |] |]; try reflexivity.
  cbn [negb andb isTextNode].
  rewrite last_char_last_ascii, first_char_first_ascii.
  destruct (last_ascii beforeText) as [a |];
    [| now rewrite isMatchingPair_undefined_l].
  destruct (first_ascii afterText) as [b |];
    [| now rewrite isMatchingPair_undefined_r].
  now rewrite isMatchingPair_table.
Qed.

Lemma pair_of_mapping_In (a b : ascii) :
  pair_of_mapping a b = true <-> In (char_string a, char_string b) pair_table.
Proof.
  unfold pair_of_mapping. rewrite existsb_exists. split.
  - intros ([o c] & Hin & He). cbn [fst snd] in He.
    apply andb_true_iff in He. destruct He as [Ho Hc].
    apply String.eqb_eq in Ho, Hc. subst. exact Hin.
  - intros Hin. exists (char_string a, char_string b).
    split; [exact Hin |]. cbn [fst snd]. now rewrite !String.eqb_refl.
Qed.

(** C6.  The paired-delete handler deletes the range
    [[cursor - 1, cursor + 1)] when the selection is an empty cursor, the
    nodes before and after it are text nodes and the characters next to
    the cursor form an opening-to-closing pair of the Pair Mapping; in
    every other case it dispatches nothing and returns [false]. *)
Theorem paired_delete (state : EditorState) :
  Pairs.createBackspaceInputHandler state true
  = (if between_matching_pair state
     then (true, Some [ delete (sel_from state - 1) (sel_from state + 1) ])
     else (false, None))
  /\ (between_matching_pair state = true <->
      sel_empty state = true
      /\ exists beforeText afterText a b,
           nodeBefore state = Some (TextNode beforeText)
           /\ nodeAfter state = Some (TextNode afterText)
           /\ last_ascii beforeText = Some a
           /\ first_ascii afterText = Some b
           /\ In (char_string a, char_string b) pair_table).
Proof.
  split; [apply createBackspaceInputHandler_eq |].
  unfold between_matching_pair, char_before, char_after.
  destruct (sel_empty state); cbn [andb].
  2:{ split; [discriminate | intros [H _]; discriminate H]. }
  destruct (nodeBefore state) as [[beforeText |] |];
    destruct (nodeAfter state) as [[afterText |] |]; cbn [isTextNode andb];
    try (split; [discriminate |];
         intros (_ & tb & ta & a & b & Hb & Ha & _); discriminate).
  split.
  - intros H.
    destruct (last_ascii beforeText) as [a |] eqn:Hlast; [| discriminate H].
    destruct (first_ascii afterText) as [b |] eqn:Hfirst; [| discriminate H].
    split; [reflexivity |]. exists beforeText, afterText, a, b.
    repeat split; try assumption. now apply pair_of_mapping_In.
  - intros (_ & tb & ta & a & b & [= <-] & [= <-] & Hlast & Hfirst & Hin).
    rewrite Hlast, Hfirst. now apply pair_of_mapping_In.
Qed.

(** The entries of the Pair Mapping are the six pairs of the data model. *)
Lemma pair_table_entries :
  pair_table
  = [ ("<", ">"); ("{", "}"); ("(", ")"); ("[", "]");
      (dquote, dquote); ("'", "'") ].
Proof. reflexivity. Qed.

Lemma paired_delete_between_parentheses :
  Paragraph.run Pairs.createBackspaceInputHandler (Paragraph.mkDoc "()" 2 2)
  = (true, Paragraph.mkDoc EmptyString 1 1).
Proof. reflexivity. Qed.

Lemma paired_delete_mismatched_pair :
  Pairs.createBackspaceInputHandler
    (Paragraph.state (Paragraph.mkDoc "(}" 2 2)) true = unhandled.
Proof. reflexivity. Qed.

Lemma paired_delete_range_selection :
  Pairs.createBackspaceInputHandler
    (Paragraph.state (Paragraph.mkDoc "()" 1 3)) true = unhandled.
Proof. reflexivity. Qed.

Lemma paired_delete_non_text_neighbour :
  Pairs.createBackspaceInputHandler
    (mkState 5 5 (Some (TextNode "(")) (Some OtherNode)
       (fun _ _ => EmptyString)) true = unhandled
  /\ Pairs.createBackspaceInputHandler
       (mkState 5 5 None (Some (TextNode ")"))
          (fun _ _ => EmptyString)) true = unhandled.
Proof. split; reflexivity. Qed.

Lemma closing_is_matching (v : JS.value) :
  Pairs.isClosingCharacter v = true -> Pairs.isMatchingCharacter v = true.
Proof.
  intros H. apply (string_guard_exact Pairs.ALL_CLOSING_CHARS) in H.
  destruct H as (s & -> & Hin).
  apply (string_guard_exact Pairs.ALL_AUTOPAIR_CHARS).
  exists s. split; [reflexivity |]. apply in_or_app. now right.
Qed.

Lemma opening_is_matching (v : JS.value) :
  Pairs.isOpeningCharacter v = true -> Pairs.isMatchingCharacter v = true.
Proof.
  intros H. apply (string_guard_exact Pairs.ALL_OPENING_CHARS) in H.
  destruct H as (s & -> & Hin).
  apply (string_guard_exact Pairs.ALL_AUTOPAIR_CHARS).
  exists s. split; [reflexivity |]. apply in_or_app. now left.
Qed.

Lemma matching_is_single_char (v : JS.value) :
  Pairs.isMatchingCharacter v = true -> exists a, v = JS.str (char_string a).
Proof.
  intros H. apply (string_guard_exact Pairs.ALL_AUTOPAIR_CHARS) in H.
  destruct H as (s & -> & Hin). cbn in Hin.
  repeat (destruct Hin as [<- | Hin]; [eexists; reflexivity |]).
  destruct Hin.
Qed.

(** The character handler at an empty cursor. *)
Lemma createAutopairInputHandler_cursor
    (char : JS.value) (state : EditorState) (dispatch : bool) :
  Pairs.isMatchingCharacter char = true ->
  sel_empty state = true ->
  Pairs.createAutopairInputHandler char state dispatch
  = if Pairs.isClosingCharacter char
       && shouldSkipClosing state (JS.to_string char)
    then dispatching dispatch [ setSelection (sel_from state + 1) ]
    else if Pairs.isOpeningCharacter char && shouldAutoClose state char
    then dispatching dispatch
           [ insertText
               (JS.concat (JS.to_string char) (Pairs.getClosingCharacter char))
               (sel_from state);
             setSelection (sel_from state + 1) ]
    else unhandled.
Proof.
  intros Hm He. unfold Pairs.createAutopairInputHandler.
  now rewrite Hm, He.
Qed.

(** The character handler on a non-empty selection. *)
Lemma createAutopairInputHandler_range
    (char : JS.value) (state : EditorState) (dispatch : bool) :
  Pairs.isMatchingCharacter char = true ->
  sel_empty state = false ->
  Pairs.createAutopairInputHandler char state dispatch
  = if Pairs.isOpeningCharacter char && Pairs.isClosingCharacter char
    then
      let wrappedText :=
        JS.concat
          (JS.concat (JS.to_string char)
             (JS.str (textBetween state (sel_from state) (sel_to state))))
          (Pairs.getClosingCharacter char) in
      dispatching dispatch
        [ replaceWith (sel_from state) (sel_to state) wrappedText;
          setSelection
            (sel_from state + Z.of_nat (String.length wrappedText)) ]
    else unhandled.
Proof.
  intros Hm He. unfold Pairs.createAutopairInputHandler.
  rewrite Hm, He. cbn [negb].
  now destruct (Pairs.isOpeningCharacter char),
    (Pairs.isClosingCharacter char).
Qed.

Lemma skip_over_dispatch (state : EditorState) (c : string) (dispatch : bool) :
  sel_empty state = true ->
  Pairs.isClosingCharacter (JS.str c) = true ->
  next_char_is state c = true ->
  Pairs.createAutopairInputHandler (JS.str c) state dispatch
  = dispatching dispatch [ setSelection (sel_from state + 1) ].
Proof.
  intros He Hc Hnext.
  pose proof (closing_is_matching _ Hc) as Hm.
  rewrite (createAutopairInputHandler_cursor _ _ _ Hm He), Hc.
  destruct (matching_is_single_char _ Hm) as (a & [= ->]).
  cbn [JS.to_string]. rewrite shouldSkipClosing_char, He, Hnext.
  reflexivity.
Qed.

(** A typed value that is no string, such as [undefined], is left to the
    host by both character handlers. *)
Lemma handlers_ignore_non_strings
    (char : JS.value) (state : EditorState) (dispatch : bool) :
  JS.isString char = false ->
  Pairs.createAutopairInputHandler char state dispatch = unhandled
  /\ Chars.createAutopairCommandForChar char state dispatch = unhandled.
Proof.
  intros Hs.
  unfold Pairs.createAutopairInputHandler, Chars.createAutopairCommandForChar,
    Pairs.isMatchingCharacter, Chars.isAutopairChar.
  now rewrite Hs.
Qed.

(** C8.  At an empty cursor whose next character is the typed closing
    character [c], the handler dispatches a transaction that sets the
    selection one position forward and holds no step: the document is
    not changed. *)
Theorem skip_over_moves_cursor_only
    (state : EditorState) (c : string) :
  sel_empty state = true ->
  Pairs.isClosingCharacter (JS.str c) = true ->
  next_char_is state c = true ->
  exists tr,
    Pairs.createAutopairInputHandler (JS.str c) state true = (true, Some tr)
    /\ tr = [ setSelection (sel_from state + 1) ]
    /\ docChanged tr = false.
Proof.
  intros He Hc Hnext. exists [ setSelection (sel_from state + 1) ].
  split; [| split; reflexivity].
  now rewrite skip_over_dispatch.
Qed.

Lemma skip_over_moves_cursor_only_witness :
  exists tr,
    Pairs.createAutopairInputHandler (JS.str ")")
      (Paragraph.state (Paragraph.mkDoc "()" 2 2)) true = (true, Some tr)
    /\ tr = [ setSelection 3 ]
    /\ docChanged tr = false.
Proof.
  apply (skip_over_moves_cursor_only
           (Paragraph.state (Paragraph.mkDoc "()" 2 2)) ")");
    reflexivity.
Defined.

(** On a one-paragraph document the skip leaves the text as it is and puts
    the cursor one position further. *)
Lemma skip_over_paragraph (d : Paragraph.doc) (c : string) :
  sel_empty (Paragraph.state d) = true ->
  Pairs.isClosingCharacter (JS.str c) = true ->
  next_char_is (Paragraph.state d) c = true ->
  Paragraph.run (Pairs.createAutopairInputHandler (JS.str c)) d
  = (true,
     Paragraph.mkDoc (Paragraph.text d)
       (sel_from (Paragraph.state d) + 1) (sel_from (Paragraph.state d) + 1)).
Proof.
  intros He Hc Hnext. unfold Paragraph.run.
  now rewrite skip_over_dispatch.
Qed.

Lemma skip_over_existing_parenthesis :
  Paragraph.run (Pairs.createAutopairInputHandler (JS.str ")"))
    (Paragraph.mkDoc "()" 2 2)
  = (true, Paragraph.mkDoc "()" 3 3).
Proof. reflexivity. Qed.

Lemma skip_applies_eq (state : EditorState) (char : JS.value) :
  Pairs.isMatchingCharacter char = true ->
  sel_empty state = true ->
  Pairs.isClosingCharacter char && shouldSkipClosing state (JS.to_string char)
  = skip_applies state char.
Proof.
  intros Hm He. unfold skip_applies.
  destruct (matching_is_single_char _ Hm) as (a & ->).
  cbn [JS.to_string]. rewrite shouldSkipClosing_char, He. reflexivity.
Qed.

Lemma closing_of_opening (char : JS.value) :
  Pairs.isOpeningCharacter char = true ->
  exists o c,
    char = JS.str (char_string o)
    /\ Pairs.getClosingCharacter char = JS.str (char_string c)
    /\ In (char_string o, char_string c) pair_table.
Proof.
  intros H. apply (string_guard_exact Pairs.ALL_OPENING_CHARS) in H.
  destruct H as (s & -> & Hin). cbn in Hin.
  repeat (destruct Hin as [<- | Hin];
          [do 2 eexists; split; [reflexivity |];
           split; [reflexivity | cbn; tauto] |]).
  destruct Hin.
Qed.

Lemma autoclose_dispatch
    (state : EditorState) (char : JS.value) (dispatch : bool) :
  autoclose_applies state char = true ->
  skip_applies state char = false ->
  Pairs.createAutopairInputHandler char state dispatch
  = dispatching dispatch (autoclose_edit state char).
Proof.
  unfold autoclose_applies. intros Ha Hs.
  apply andb_true_iff in Ha. destruct Ha as [Ha Hauto].
  apply andb_true_iff in Ha. destruct Ha as [He Ho].
  pose proof (opening_is_matching _ Ho) as Hm.
  rewrite (createAutopairInputHandler_cursor _ _ _ Hm He).
  rewrite (skip_applies_eq _ _ Hm He), Hs, Ho, Hauto. reflexivity.
Qed.

(** C7, as amended.  At an empty cursor, an opening character [c] for which
    the auto-close check permits and the skip-over check does not apply
    (the next character is not [c], or [c] is no closing character) is
    answered by one transaction that inserts the two-character string
    [c + closingFor(c)] at the cursor and sets the cursor to [from + 1]. *)
Theorem auto_close_inserts_pair (state : EditorState) (char : JS.value) :
  autoclose_applies state char = true ->
  skip_applies state char = false ->
  Pairs.createAutopairInputHandler char state true
  = (true, Some (autoclose_edit state char))
  /\ exists o c,
       In (char_string o, char_string c) pair_table
       /\ autoclose_edit state char
          = [ insertText (String o (String c EmptyString)) (sel_from state);
              setSelection (sel_from state + 1) ].
Proof.
  intros Ha Hs. split; [now rewrite autoclose_dispatch |].
  assert (Ho : Pairs.isOpeningCharacter char = true).
  { unfold autoclose_applies in Ha.
    destruct (sel_empty state), (Pairs.isOpeningCharacter char);
      try discriminate Ha; reflexivity. }
  destruct (closing_of_opening _ Ho) as (o & c & -> & Hc & Hin).
  exists o, c. split; [exact Hin |].
  unfold autoclose_edit. now rewrite Hc.
Qed.

Lemma auto_close_inserts_pair_witness :
  Pairs.createAutopairInputHandler (JS.str "(")
    (Paragraph.state (Paragraph.mkDoc EmptyString 1 1)) true
  = (true, Some [ insertText "()" 1; setSelection 2 ]).
Proof.
  apply (auto_close_inserts_pair
           (Paragraph.state (Paragraph.mkDoc EmptyString 1 1)) (JS.str "("));
    reflexivity.
Defined.

Lemma auto_close_empty_document :
  Paragraph.run (Pairs.createAutopairInputHandler (JS.str "("))
    (Paragraph.mkDoc EmptyString 1 1)
  = (true, Paragraph.mkDoc "()" 2 2).
Proof. reflexivity. Qed.

(** C7 as stated fails: a quote typed at an empty cursor directly before
    the same quote passes the auto-close check, yet the skip-over check
    comes first and the handler only moves the cursor. *)
Lemma quote_before_same_quote_is_skipped :
  let state := Paragraph.state (Paragraph.mkDoc (dquote ++ dquote) 2 2) in
  autoclose_applies state (JS.str dquote) = true
  /\ Pairs.createAutopairInputHandler (JS.str dquote) state true
     = (true, Some [ setSelection 3 ])
  /\ ~ autoclose_whenever_permitted state (JS.str dquote).
Proof.
  cbv zeta. split; [reflexivity |]. split; [reflexivity |].
  intros H. specialize (H eq_refl). discriminate H.
Qed.

Lemma string_app_assoc (a b c : string) : ((a ++ b) ++ c = a ++ b ++ c)%string.
Proof.
  induction a as [| x a IH]; [reflexivity |].
  cbn [String.append]. now rewrite IH.
Qed.

(** The wrap branch of [packages/.../autopairs.ts] returns [false] unless
    the typed character is an opening and a closing character at once:
    it wraps with the two quotes and with no bracket. *)
Lemma Pairs_wrap_refuses_brackets
    (state : EditorState) (char : JS.value) (dispatch : bool) :
  sel_empty state = false ->
  isQuote char = false ->
  Pairs.createAutopairInputHandler char state dispatch = unhandled.
Proof.
  intros He Hq. unfold Pairs.createAutopairInputHandler.
  destruct (Pairs.isMatchingCharacter char) eqn:Hm; [| reflexivity].
  rewrite He. cbn [negb].
  apply (string_guard_exact Pairs.ALL_AUTOPAIR_CHARS) in Hm.
  destruct Hm as (s & -> & Hin). cbn in Hin.
  repeat (destruct Hin as [<- | Hin];
          [first [reflexivity | discriminate Hq] |]).
  destruct Hin.
Qed.

Lemma Pairs_wrap_with_quote
    (state : EditorState) (q : string) (dispatch : bool) :
  sel_empty state = false ->
  isQuote (JS.str q) = true ->
  Pairs.createAutopairInputHandler (JS.str q) state dispatch
  = dispatching dispatch (wrap_edit state q q).
Proof.
  intros He Hq. unfold isQuote in Hq. cbn [JS.strict_eq] in Hq.
  apply orb_true_iff in Hq.
  destruct Hq as [Hq | Hq]; apply String.eqb_eq in Hq; subst q;
    (rewrite createAutopairInputHandler_range;
     [reflexivity | reflexivity | exact He]).
Qed.

(** The wrap branch of [src/lib/autopairs.ts] wraps with every opening
    character of the Pair Mapping. *)
Lemma Chars_wrap_with_opening
    (state : EditorState) (opening closing : string) (dispatch : bool) :
  In (opening, closing) pair_table ->
  sel_empty state = false ->
  Chars.createAutopairCommandForChar (JS.str opening) state dispatch
  = dispatching dispatch (wrap_edit state opening closing).
Proof.
  intros Hin He. unfold Chars.createAutopairCommandForChar. rewrite He.
  cbn in Hin.
  repeat (destruct Hin as [[= <- <-] | Hin]; [reflexivity |]).
  destruct Hin.
Qed.

(** C2, at the failing input.  With [wrap me] selected and [(] typed, the
    handler of [packages/.../autopairs.ts] returns [false] and dispatches
    nothing, because [(] is no closing character and the branch tests
    [!isOpeningChar || !isClosingChar]; the handler of
    [src/lib/autopairs.ts] produces [(wrap me)] with the cursor after the
    closing parenthesis. *)
Theorem wrap_selection_with_parenthesis :
  let d := Paragraph.mkDoc "wrap me" 1 8 in
  textBetween (Paragraph.state d) 1 8 = "wrap me"
  /\ Pairs.createAutopairInputHandler (JS.str "(") (Paragraph.state d) true
     = (false, None)
  /\ Paragraph.run (Pairs.createAutopairInputHandler (JS.str "(")) d
     = (false, d)
  /\ Chars.createAutopairCommandForChar (JS.str "(") (Paragraph.state d) true
     = (true, Some [ replaceWith 1 8 "(wrap me)"; setSelection 10 ])
  /\ Paragraph.run (Chars.createAutopairCommandForChar (JS.str "(")) d
     = (true, Paragraph.mkDoc "(wrap me)" 10 10).
Proof. cbv zeta. repeat split; reflexivity. Qed.

Lemma guard_NoAction (state : EditorState) (char : JS.value) :
  guard NoAction state char
  = negb (guard RejectUnknown state char || guard Wrap state char
          || guard SkipOver state char || guard AutoClose state char).
Proof. reflexivity. Qed.

Lemma handler_by_first_check (state : EditorState) (char : JS.value) :
  decided_by (first_check state char) state char
    (Pairs.createAutopairInputHandler char state true).
Proof.
  unfold first_check, checks_in_order. cbn [find].
  rewrite guard_NoAction. cbn [guard].
  destruct (Pairs.isMatchingCharacter char) eqn:Hm; cbn [negb].
  2:{ cbn [decided_by]. unfold Pairs.createAutopairInputHandler.
      now rewrite Hm. }
  destruct (sel_empty state) eqn:He; cbn [negb].
  2:{ cbn [decided_by].
      rewrite (createAutopairInputHandler_range _ _ _ Hm He).
      destruct (Pairs.isOpeningCharacter char && Pairs.isClosingCharacter char);
        [| now left].
      right. destruct (matching_is_single_char _ Hm) as (a & ->).
      destruct (Pairs.getClosingCharacter (JS.str (char_string a))) eqn:Hc;
        eexists; cbv zeta; unfold wrap_edit, dispatching, JS.concat;
        cbn [JS.to_string]; rewrite !string_app_assoc; reflexivity. }
  rewrite (createAutopairInputHandler_cursor _ _ _ Hm He).
  rewrite (skip_applies_eq _ _ Hm He).
  destruct (skip_applies state char) eqn:Hs; [reflexivity |].
  cbn [orb]. unfold autoclose_applies. rewrite He. cbn [andb].
  destruct (Pairs.isOpeningCharacter char && shouldAutoClose state char);
    reflexivity.
Qed.

Lemma skip_and_autoclose_need_quote (state : EditorState) (char : JS.value) :
  negb (isQuote char)
  && guard SkipOver state char && guard AutoClose state char = false.
Proof.
  cbn [guard]. unfold skip_applies, autoclose_applies.
  destruct (Pairs.isClosingCharacter char) eqn:Hc,
    (Pairs.isOpeningCharacter char) eqn:Ho;
    try (destruct (isQuote char), (sel_empty state),
           (next_char_is state (JS.to_string char)),
           (shouldAutoClose state char); reflexivity).
  apply (string_guard_exact Pairs.ALL_CLOSING_CHARS) in Hc.
  destruct Hc as (s & -> & Hin). cbn in Hin.
  repeat (destruct Hin as [<- | Hin];
          [first [discriminate Ho | reflexivity] |]).
  destruct Hin.
Qed.

(** C4, as amended.  The handler does what the first check, in the order
    reject-unknown, wrap, skip-over, auto-close, no-action, whose guard
    holds prescribes; a non-empty selection rules out skip-over and
    auto-close; for a character that is no quote the skip-over and the
    auto-close guard never hold together. *)
Theorem checks_resolved_in_order (state : EditorState) (char : JS.value) :
  decided_by (first_check state char) state char
    (Pairs.createAutopairInputHandler char state true)
  /\ guard Wrap state char
     && (guard SkipOver state char || guard AutoClose state char) = false
  /\ negb (isQuote char)
     && guard SkipOver state char && guard AutoClose state char = false.
Proof.
  split; [apply handler_by_first_check |].
  split; [| apply skip_and_autoclose_need_quote].
  cbn [guard]. unfold skip_applies, autoclose_applies.
  now destruct (sel_empty state).
Qed.

(** C4 as stated fails: the guards are not mutually exclusive.  For a
    quote typed at an empty cursor between two quotes the guards of
    skip-over and of auto-close both hold, and skip-over decides. *)
Lemma guards_not_mutually_exclusive :
  let state := Paragraph.state (Paragraph.mkDoc (dquote ++ dquote) 2 2) in
  guard SkipOver state (JS.str dquote) = true
  /\ guard AutoClose state (JS.str dquote) = true
  /\ first_check state (JS.str dquote) = SkipOver
  /\ ~ mutually_exclusive state (JS.str dquote).
Proof.
  cbv zeta. repeat split; try reflexivity.
  intros H. specialize (H SkipOver AutoClose eq_refl eq_refl).
  discriminate H.
Qed.

Lemma unknown_character_with_range_selection :
  let state := Paragraph.state (Paragraph.mkDoc "wrap me" 1 8) in
  guard RejectUnknown state (JS.str "x") = true
  /\ guard Wrap state (JS.str "x") = true.
Proof. split; reflexivity. Qed.

(* ================================================================== *)
(** * Dispatch table *)
(* ================================================================== *)

Lemma get_set_same {V : Type} (o : list (string * V)) (k : string) (v : V) :
  JS.get String.eqb (JS.set String.eqb o k v) k = Some v.
Proof.
  induction o as [| [k' v'] rest IH]; cbn [JS.set JS.get].
  - now rewrite String.eqb_refl.
  - destruct (String.eqb k' k) eqn:Hk; cbn [JS.get]; now rewrite Hk.
Qed.

Lemma Backspace_bound (options : AutopairsOptions) :
  JS.get String.eqb (Pairs.buildKeyBindings options) Pairs.BACKSPACE
  = Some Pairs.createBackspaceInputHandler.
Proof. unfold Pairs.buildKeyBindings. apply get_set_same. Qed.

(** C10.  Whatever the configuration, the dispatch table binds the delete
    trigger to the paired-delete handler; pressing it under any two
    configurations gives the same outcome, which deletes a pair of the
    full Pair Mapping around the cursor whether or not the group of that
    pair is enabled. *)
Theorem paired_delete_independent_of_configuration
    (options1 options2 : AutopairsOptions)
    (state : EditorState) (dispatch : bool) :
  JS.get String.eqb (Pairs.buildKeyBindings options1) Pairs.BACKSPACE
  = Some Pairs.createBackspaceInputHandler
  /\ press (Pairs.buildKeyBindings options1) Pairs.BACKSPACE state dispatch
     = press (Pairs.buildKeyBindings options2) Pairs.BACKSPACE state dispatch
  /\ press (Pairs.buildKeyBindings options1) Pairs.BACKSPACE state dispatch
     = if between_matching_pair state
       then dispatching dispatch
              [ delete (sel_from state - 1) (sel_from state + 1) ]
       else unhandled.
Proof.
  unfold press. rewrite !Backspace_bound.
  split; [reflexivity |]. split; [reflexivity |].
  apply createBackspaceInputHandler_eq.
Qed.

Lemma all_disabled_bindings :
  Pairs.getEnabledAutopairChars all_disabled = []
  /\ Pairs.buildKeyBindings all_disabled
     = [ (Pairs.BACKSPACE, Pairs.createBackspaceInputHandler) ].
Proof. split; reflexivity. Qed.

Lemma all_disabled_still_deletes_parentheses :
  Paragraph.run
    (press (Pairs.buildKeyBindings all_disabled) Pairs.BACKSPACE)
    (Paragraph.mkDoc "a()b" 3 3)
  = (true, Paragraph.mkDoc "ab" 2 2)
  /\ press (Pairs.buildKeyBindings all_disabled) "(" 
       (Paragraph.state (Paragraph.mkDoc "ab" 2 2)) true = unhandled.
Proof. split; reflexivity. Qed.

(* ================================================================== *)
(** * Further properties: the pair mapping and the groups *)
(* ================================================================== *)

Ltac unfold_chars_tables :=
  unfold Chars.isMatchingPair, Chars.isOpeningChar, Chars.isClosingChar,
    Chars.isAutopairChar, Chars.findClosingMatch, Chars.findOpeningMatch,
    pair_lookup, JS.includes, Chars.ALL_AUTOPAIR_CHARS,
    Chars.AUTOPAIR_CHAR_MAP, pair_table,
    OpeningBracket.Angle, OpeningBracket.Curly, OpeningBracket.Round,
    OpeningBracket.Square, ClosingBracket.Angle, ClosingBracket.Curly,
    ClosingBracket.Round, ClosingBracket.Square, Quote.Double, Quote.Single,
    dquote;
  cbn [existsb find map fst snd JS.keys JS.values JS.get JS.isString
       JS.strict_eq JS.to_string andb orb app].

Lemma Chars_isMatchingPair_table (x y : string) :
  Chars.isMatchingPair (JS.str x) (JS.str y)
  = existsb
      (fun entry => String.eqb (fst entry) x && String.eqb (snd entry) y)
      pair_table.
Proof.
  unfold_chars_tables.
  decide_string_tests; cbn [andb orb JS.strict_eq]; try reflexivity;
    decide_string_tests; try reflexivity;
    destruct (JS.inherited x); reflexivity.
Qed.

Lemma isMatchingPair_agree (v w : JS.value) :
  Chars.isMatchingPair v w = Pairs.isMatchingPair v w.
Proof.
  destruct v as [| | b | n | x | f]; try reflexivity.
  destruct w as [| | b | n | y | f];
    try (unfold Chars.isMatchingPair, Pairs.isMatchingPair,
           Chars.isClosingChar, Pairs.isClosingCharacter;
         cbn [JS.isString andb]; now rewrite !andb_false_r).
  now rewrite Chars_isMatchingPair_table, isMatchingPair_table.
Qed.

(** [isMatchingPair] of [pairs.ts] holds for two values exactly when both
    are strings and form an entry of the pair mapping; every value that is
    no string, [undefined] included, matches nothing. *)
Theorem isMatchingPair_iff_entry (v w : JS.value) :
  Pairs.isMatchingPair v w = true <->
  exists opening closing,
    v = JS.str opening /\ w = JS.str closing
    /\ In (opening, closing) pair_table.
Proof.
  split.
  - intros H.
    destruct v as [| | b | n | x | f]; try discriminate H.
    destruct w as [| | b | n | y | f];
      try (unfold Pairs.isMatchingPair, Pairs.isClosingCharacter in H;
           cbn [JS.isString andb] in H; rewrite !andb_false_r in H;
           discriminate H).
    rewrite isMatchingPair_table in H. apply existsb_exists in H.
    destruct H as ([o c] & Hin & He). cbn [fst snd] in He.
    apply andb_true_iff in He. destruct He as [Ho Hc].
    apply String.eqb_eq in Ho, Hc. subst. now exists x, y.
  - intros (o & c & -> & -> & Hin). rewrite isMatchingPair_table.
    apply existsb_exists. exists (o, c). split; [exact Hin |].
    cbn [fst snd]. now rewrite !String.eqb_refl.
Qed.

(** The two generations agree on pair matching, although the opening and
    closing predicates of [chars.ts] accept all twelve characters: the
    lookup in the pair map settles the match.  Their paired-delete
    handlers therefore give the same outcome on every state. *)
Theorem generations_agree_on_paired_delete
    (v w : JS.value) (state : EditorState) (dispatch : bool) :
  Chars.isMatchingPair v w = Pairs.isMatchingPair v w
  /\ Chars.createBackspaceInputCommand state dispatch
     = Pairs.createBackspaceInputHandler state dispatch.
Proof.
  split; [apply isMatchingPair_agree |].
  unfold Chars.createBackspaceInputCommand, Pairs.createBackspaceInputHandler.
  destruct (sel_empty state); [| reflexivity]. cbn [negb].
  destruct (nodeBefore state) as [[beforeText |] |];
    destruct (nodeAfter state) as [[afterText |] |]; try reflexivity.
  now rewrite isMatchingPair_agree.
Qed.

(** The closing match of an opening character is a closing character, and
    the two form a matching pair. *)
Theorem closing_match_is_closing (v : JS.value) :
  Pairs.isOpeningCharacter v = true ->
  Pairs.isClosingCharacter (Pairs.getClosingCharacter v) = true
  /\ Pairs.isMatchingPair v (Pairs.getClosingCharacter v) = true
  /\ isQuote (Pairs.getClosingCharacter v) = isQuote v.
Proof.
  intros H. apply (string_guard_exact Pairs.ALL_OPENING_CHARS) in H.
  destruct H as (s & -> & Hin). cbn in Hin.
  repeat (destruct Hin as [<- | Hin]; [repeat split; reflexivity |]).
  destruct Hin.
Qed.

Lemma closing_match_is_closing_witness :
  Pairs.isClosingCharacter (Pairs.getClosingCharacter (JS.str "[")) = true.
Proof.
  apply (closing_match_is_closing (JS.str "[")). reflexivity.
Defined.

(** What the lookup in the pair map gives for a string: the closing
    character of an entry, the inherited member for a name the object
    literal inherits, and [undefined] for every other string. *)
Theorem closing_lookup_of_string (s : string) :
  (forall closing,
     Pairs.getClosingCharacter (JS.str s) = JS.str closing
     <-> In (s, closing) pair_table)
  /\ (Pairs.getClosingCharacter (JS.str s) = JS.undefined
      <-> Pairs.isOpeningCharacter (JS.str s) = false
          /\ JS.inherited s = false)
  /\ Chars.findClosingMatch (JS.str s) = Pairs.getClosingCharacter (JS.str s).
Proof.
  split; [| split; [| reflexivity]].
  - intros closing. unfold_tables. cbn [In].
    decide_string_tests; cbn [JS.inherited];
      try (split;
           [ intros [= <-]; tauto
           | intros Hin;
             repeat (destruct Hin as [[= <-] | Hin]; try congruence);
             try reflexivity; try contradiction ]).
    destruct (JS.inherited s); split; try discriminate;
      intros Hin;
      repeat (destruct Hin as [[= Hk Hc] | Hin]; try congruence);
      contradiction.
  - unfold_tables.
    decide_string_tests; cbn [andb orb];
      try (split; [discriminate | intros [Hf _]; discriminate Hf]).
    destruct (JS.inherited s); split; try discriminate; try tauto.
    intros [_ Hf]. discriminate Hf.
Qed.

(** [findOpeningMatch] inverts [findClosingMatch] on the keys of the pair
    map. *)
Theorem opening_of_closing_of_opening (v : JS.value) :
  JS.includes (JS.keys Chars.AUTOPAIR_CHAR_MAP) v = true ->
  Chars.findOpeningMatch (Chars.findClosingMatch v) = v.
Proof.
  intros H. destruct v as [| | b | n | s | f];
    try (rewrite includes_not_string in H; [discriminate H | reflexivity]).
  apply includes_str in H. cbn in H.
  repeat (destruct H as [<- | H]; [reflexivity |]).
  destruct H.
Qed.

Lemma opening_of_closing_of_opening_witness :
  Chars.findOpeningMatch (Chars.findClosingMatch (JS.str "{")) = JS.str "{".
Proof.
  apply (opening_of_closing_of_opening (JS.str "{")). reflexivity.
Defined.

Lemma find_none_of_existsb {A B : Type} (p : B -> bool) (l : list (A * B)) :
  existsb p (map snd l) = false ->
  find (fun entry => p (snd entry)) l = None.
Proof.
  induction l as [| e l IH]; [reflexivity |].
  cbn [map existsb find]. intros H. apply orb_false_iff in H.
  destruct H as [He Hl]. rewrite He. now apply IH.
Qed.

(** The reverse lookup either finds nothing or finds an opening character
    whose closing match is the value asked for; it finds nothing for every
    value that is no closing character. *)
Theorem opening_match_sound (v : JS.value) :
  (Chars.findOpeningMatch v = JS.undefined
   /\ Pairs.isClosingCharacter v = false)
  \/ (Chars.findClosingMatch (Chars.findOpeningMatch v) = v
      /\ Pairs.isClosingCharacter v = true
      /\ Pairs.isOpeningCharacter (Chars.findOpeningMatch v) = true).
Proof.
  destruct (Pairs.isClosingCharacter v) eqn:Hc.
  - right. apply (string_guard_exact Pairs.ALL_CLOSING_CHARS) in Hc.
    destruct Hc as (s & -> & Hin). cbn in Hin.
    repeat (destruct Hin as [<- | Hin]; [repeat split; reflexivity |]).
    destruct Hin.
  - left. split; [| reflexivity].
    unfold Chars.findOpeningMatch.
    rewrite (find_none_of_existsb (fun c => JS.strict_eq (JS.str c) v));
      [reflexivity |].
    destruct v as [| | b | n | s | f];
      try (apply includes_not_string; reflexivity).
    exact Hc.
Qed.

(** Every pair character belongs to exactly one group, and the groups hold
    nothing but pair characters. *)
Theorem groups_partition_pair_characters (c : string) :
  (Pairs.isMatchingCharacter (JS.str c) = true
   <-> exists g, In c (Pairs.AUTOPAIR_GROUPS g))
  /\ (forall g1 g2,
        In c (Pairs.AUTOPAIR_GROUPS g1) -> In c (Pairs.AUTOPAIR_GROUPS g2) ->
        g1 = g2).
Proof.
  split.
  - split.
    + intros H. apply (string_guard_exact Pairs.ALL_AUTOPAIR_CHARS) in H.
      destruct H as (s & [= <-] & Hin). cbn in Hin.
      repeat (destruct Hin as [<- | Hin]);
        [ exists AngleBrackets | exists CurlyBrackets | exists RoundBrackets
        | exists SquareBrackets | exists DoubleQuotes | exists SingleQuotes
        | exists AngleBrackets | exists CurlyBrackets | exists RoundBrackets
        | exists SquareBrackets | exists DoubleQuotes | exists SingleQuotes
        | destruct Hin ]; cbn; tauto.
    + intros (g & Hin). apply (string_guard_exact Pairs.ALL_AUTOPAIR_CHARS).
      exists c. split; [reflexivity |].
      destruct g; cbn in Hin |- *; tauto.
  - intros g1 g2. apply groups_disjoint.
Qed.

(** [resolveCharGroup] returns a character list exactly for the six group
    names, each with the list of its group; [isCharGroup] accepts the names
    [isAutopairGroup] accepts and, besides, the names every object
    inherits. *)
Theorem resolveCharGroup_list_iff_group (v : JS.value) (chars : list string) :
  (Chars.resolveCharGroup v = JS.Ok (Chars.CharList chars)
   <-> exists g, v = JS.str (AutopairGroup_value g) /\ chars = group_chars g)
  /\ Chars.isCharGroup v
     = Pairs.isAutopairGroup v
       || (JS.isString v && JS.inherited (JS.to_string v)).
Proof.
  split.
  - split.
    + intros H. destruct v as [| | b | n | s | f]; try discriminate H.
      unfold Chars.resolveCharGroup, Chars.isCharGroup, JS.has_property,
        Chars.AUTOPAIR_CHAR_GROUPS in H.
      cbn [JS.isString JS.to_string andb] in H.
      destruct (JS.get String.eqb group_table s) as [l |] eqn:Hget.
      * cbn [negb] in H. injection H as <-.
        unfold group_table in Hget. cbn [JS.get] in Hget.
        revert Hget. decide_string_tests; intros [= <-];
          [ exists AngleBrackets | exists CurlyBrackets
          | exists RoundBrackets | exists SquareBrackets
          | exists DoubleQuotes | exists SingleQuotes ]; split; reflexivity.
      * destruct (JS.inherited s); discriminate H.
    + intros (g & -> & ->). apply resolveCharGroup_group.
  - destruct v as [| | b | n | s | f]; try reflexivity.
    unfold Chars.isCharGroup, Pairs.isAutopairGroup, JS.has_property,
      Chars.AUTOPAIR_CHAR_GROUPS, Pairs.ALL_CHAR_GROUPS, JS.includes,
      AutopairGroup_values, group_table.
    cbn [JS.isString JS.to_string andb map existsb JS.get JS.strict_eq
         AutopairGroup_value].
    decide_string_tests; cbn [orb]; reflexivity.
Qed.

(* ================================================================== *)
(** * Further properties: the handlers *)
(* ================================================================== *)

(** All four handlers keep to the command contract: called without a
    dispatch function they dispatch nothing and return what they return
    with one, and with one they return [true] exactly when they have
    dispatched a transaction. *)
Theorem handlers_obey_command_protocol (char : JS.value) :
  obeys_command_protocol (Pairs.createAutopairInputHandler char)
  /\ obeys_command_protocol (Chars.createAutopairCommandForChar char)
  /\ obeys_command_protocol Pairs.createBackspaceInputHandler
  /\ obeys_command_protocol Chars.createBackspaceInputCommand.
Proof.
  assert (Hyes : forall tr : Transaction,
             dispatched (dispatching false tr) = None
             /\ handled (dispatching false tr) = handled (dispatching true tr)
             /\ (handled (dispatching true tr) = true
                 <-> exists tr', dispatched (dispatching true tr) = Some tr')).
  { intros tr. repeat split. intros _. now exists tr. }
  assert (Hno : dispatched unhandled = None
                /\ handled unhandled = handled unhandled
                /\ (handled unhandled = true
                    <-> exists tr', dispatched unhandled = Some tr')).
  { repeat split; [discriminate | intros (tr' & H); discriminate H]. }
  split; [| split; [| split]].
  - intros state. unfold Pairs.createAutopairInputHandler.
    destruct (Pairs.isMatchingCharacter char); cbn [negb]; [| exact Hno].
    destruct (sel_empty state); cbn [negb].
    + destruct (Pairs.isClosingCharacter char
                && shouldSkipClosing state (JS.to_string char));
        [apply Hyes |].
      destruct (Pairs.isOpeningCharacter char && shouldAutoClose state char);
        [apply Hyes | exact Hno].
    + destruct (negb (Pairs.isOpeningCharacter char)
                || negb (Pairs.isClosingCharacter char));
        [exact Hno | apply Hyes].
  - intros state. unfold Chars.createAutopairCommandForChar.
    destruct (Chars.isAutopairChar char); cbn [negb]; [| exact Hno].
    destruct (sel_empty state); cbn [negb].
    + destruct (Chars.isClosingChar char
                && shouldSkipClosing state (JS.to_string char));
        [apply Hyes |].
      destruct (Chars.isOpeningChar char && shouldAutoClose state char);
        [apply Hyes | exact Hno].
    + destruct (Chars.isOpeningChar char); cbn [negb]; [| exact Hno].
      destruct (JS.truthy (Chars.findClosingMatch char)); cbn [negb];
        [apply Hyes | exact Hno].
  - intros state. rewrite !createBackspaceInputHandler_eq.
    destruct (between_matching_pair state); [apply Hyes | exact Hno].
  - intros state. unfold Chars.createBackspaceInputCommand.
    destruct (sel_empty state); cbn [negb]; [| exact Hno].
    destruct (nodeBefore state) as [[beforeText |] |];
      destruct (nodeAfter state) as [[afterText |] |]; try exact Hno.
    destruct (Chars.isMatchingPair (JS.last_char beforeText)
                (JS.first_char afterText)); [apply Hyes | exact Hno].
Qed.

(** On a non-empty selection the handler of [packages/.../autopairs.ts]
    wraps the selected text when the typed character is one of the two
    quotes and returns [false] for every other value, the opening
    brackets included. *)
Theorem Pairs_wrap_exactly_with_quotes
    (char : JS.value) (state : EditorState) (dispatch : bool) :
  sel_empty state = false ->
  Pairs.createAutopairInputHandler char state dispatch
  = if isQuote char
    then dispatching dispatch
           (wrap_edit state (JS.to_string char) (JS.to_string char))
    else unhandled.
Proof.
  intros He. destruct (isQuote char) eqn:Hq.
  - destruct char as [| | b | n | q | f]; try discriminate Hq.
    now apply Pairs_wrap_with_quote.
  - now apply Pairs_wrap_refuses_brackets.
Qed.

Lemma Pairs_wrap_exactly_with_quotes_witness :
  Pairs.createAutopairInputHandler (JS.str "'")
    (Paragraph.state (Paragraph.mkDoc "wrap me" 1 8)) true
  = (true, Some [ replaceWith 1 8 "'wrap me'"; setSelection 10 ]).
Proof.
  apply (Pairs_wrap_exactly_with_quotes (JS.str "'")
           (Paragraph.state (Paragraph.mkDoc "wrap me" 1 8)) true).
  reflexivity.
Defined.

(** On a non-empty selection the handler of [src/lib/autopairs.ts] wraps
    the selected text between the typed character and its closing match
    when the character is a key of the pair map, and returns [false] for
    every other value: a closing bracket passes [isOpeningChar] but has no
    closing match. *)
Theorem Chars_wrap_exactly_with_opening
    (char : JS.value) (state : EditorState) (dispatch : bool) :
  sel_empty state = false ->
  Chars.createAutopairCommandForChar char state dispatch
  = if JS.includes (JS.keys Chars.AUTOPAIR_CHAR_MAP) char
    then dispatching dispatch
           (wrap_edit state (JS.to_string char)
              (JS.to_string (Chars.findClosingMatch char)))
    else unhandled.
Proof.
  intros He. unfold Chars.createAutopairCommandForChar. rewrite He.
  destruct (Chars.isAutopairChar char) eqn:Hm; cbn [negb].
  - apply (string_guard_exact Chars.ALL_AUTOPAIR_CHARS) in Hm.
    destruct Hm as (s & -> & Hin). cbn in Hin.
    repeat (destruct Hin as [<- | Hin]; [reflexivity |]).
    destruct Hin.
  - destruct (JS.includes (JS.keys Chars.AUTOPAIR_CHAR_MAP) char) eqn:Hk;
      [| reflexivity].
    destruct char as [| | b | n | s | f];
      try (rewrite includes_not_string in Hk; [discriminate Hk | reflexivity]).
    apply includes_str in Hk.
    assert (Hall : Chars.isAutopairChar (JS.str s) = true).
    { apply (string_guard_exact Chars.ALL_AUTOPAIR_CHARS).
      exists s. split; [reflexivity |]. apply in_or_app. now left. }
    congruence.
Qed.

Lemma Chars_wrap_exactly_with_opening_witness :
  Chars.createAutopairCommandForChar (JS.str "[")
    (Paragraph.state (Paragraph.mkDoc "wrap me" 1 8)) true
  = (true, Some [ replaceWith 1 8 "[wrap me]"; setSelection 10 ])
  /\ Chars.createAutopairCommandForChar (JS.str "]")
       (Paragraph.state (Paragraph.mkDoc "wrap me" 1 8)) true
     = unhandled.
Proof.
  split.
  - apply (Chars_wrap_exactly_with_opening (JS.str "[")
             (Paragraph.state (Paragraph.mkDoc "wrap me" 1 8)) true).
    reflexivity.
  - apply (Chars_wrap_exactly_with_opening (JS.str "]")
             (Paragraph.state (Paragraph.mkDoc "wrap me" 1 8)) true).
    reflexivity.
Defined.

Lemma closing_bracket_cases (v : JS.value) :
  Pairs.isClosingCharacter v = true ->
  isQuote v = false ->
  v = JS.str ">" \/ v = JS.str "}" \/ v = JS.str ")" \/ v = JS.str "]".
Proof.
  intros Hc Hq. apply (string_guard_exact Pairs.ALL_CLOSING_CHARS) in Hc.
  destruct Hc as (s & -> & Hin). cbn in Hin.
  repeat (destruct Hin as [<- | Hin]; [first [tauto | discriminate Hq] |]).
  destruct Hin.
Qed.

Lemma opening_bracket_cases (v : JS.value) :
  Pairs.isOpeningCharacter v = true ->
  isQuote v = false ->
  v = JS.str "<" \/ v = JS.str "{" \/ v = JS.str "(" \/ v = JS.str "[".
Proof.
  intros Ho Hq. apply (string_guard_exact Pairs.ALL_OPENING_CHARS) in Ho.
  destruct Ho as (s & -> & Hin). cbn in Hin.
  repeat (destruct Hin as [<- | Hin]; [first [tauto | discriminate Hq] |]).
  destruct Hin.
Qed.

(** A closing bracket typed into the handler of [packages/.../autopairs.ts]
    is either skipped over or left to the host: the handler moves the
    cursor when the skip-over check applies and returns [false] otherwise,
    so it never dispatches a transaction that changes the document. *)
Theorem Pairs_closing_bracket_never_edits
    (char : JS.value) (state : EditorState) (dispatch : bool) :
  Pairs.isClosingCharacter char = true ->
  isQuote char = false ->
  Pairs.createAutopairInputHandler char state dispatch
  = (if skip_applies state char
     then dispatching dispatch [ setSelection (sel_from state + 1) ]
     else unhandled)
  /\ forall tr,
       dispatched (Pairs.createAutopairInputHandler char state dispatch)
       = Some tr ->
       docChanged tr = false.
Proof.
  intros Hc Hq.
  assert (Heq : Pairs.createAutopairInputHandler char state dispatch
                = if skip_applies state char
                  then dispatching dispatch
                         [ setSelection (sel_from state + 1) ]
                  else unhandled).
  { pose proof (closing_is_matching _ Hc) as Hm.
    assert (Ho : Pairs.isOpeningCharacter char = false).
    { destruct (closing_bracket_cases _ Hc Hq) as [-> | [-> | [-> | ->]]];
        reflexivity. }
    destruct (sel_empty state) eqn:He.
    - rewrite (createAutopairInputHandler_cursor _ _ _ Hm He).
      rewrite (skip_applies_eq _ _ Hm He), Ho. reflexivity.
    - rewrite (createAutopairInputHandler_range _ _ _ Hm He), Ho.
      unfold skip_applies. now rewrite He. }
  split; [exact Heq |].
  intros tr. rewrite Heq.
  destruct (skip_applies state char), dispatch; cbn; intros [= <-];
    reflexivity.
Qed.

Lemma Pairs_closing_bracket_never_edits_witness :
  Pairs.createAutopairInputHandler (JS.str "}")
    (Paragraph.state (Paragraph.mkDoc "{a" 3 3)) true
  = unhandled.
Proof.
  apply (Pairs_closing_bracket_never_edits (JS.str "}")
           (Paragraph.state (Paragraph.mkDoc "{a" 3 3)) true);
    reflexivity.
Defined.

(** An opening bracket typed at an empty cursor is auto-closed by the
    handler of [packages/.../autopairs.ts] whatever surrounds the cursor:
    neither the skip-over check nor the word-adjacency rule can keep a
    bracket from being paired. *)
Theorem Pairs_opening_bracket_always_closed
    (char : JS.value) (state : EditorState) (dispatch : bool) :
  Pairs.isOpeningCharacter char = true ->
  isQuote char = false ->
  sel_empty state = true ->
  Pairs.createAutopairInputHandler char state dispatch
  = dispatching dispatch (autoclose_edit state char).
Proof.
  intros Ho Hq He. apply autoclose_dispatch.
  - unfold autoclose_applies.
    now rewrite He, Ho, (bracket_autoclose_always _ _ Hq).
  - unfold skip_applies.
    destruct (opening_bracket_cases _ Ho Hq) as [-> | [-> | [-> | ->]]];
      now rewrite He.
Qed.

Lemma Pairs_opening_bracket_always_closed_witness :
  Pairs.createAutopairInputHandler (JS.str "(")
    (Paragraph.state (Paragraph.mkDoc "ab(" 3 3)) true
  = (true, Some [ insertText "()" 3; setSelection 4 ]).
Proof.
  apply (Pairs_opening_bracket_always_closed (JS.str "(")
           (Paragraph.state (Paragraph.mkDoc "ab(" 3 3)) true);
    reflexivity.
Defined.

(** A quote typed at an empty cursor, in the handler of
    [packages/.../autopairs.ts]: it is skipped over when the next
    character is the same quote; otherwise it is left to the host when a
    word character is next to the cursor, and auto-closed when none is. *)
Theorem Pairs_quote_at_cursor
    (char : JS.value) (state : EditorState) (dispatch : bool) :
  isQuote char = true ->
  sel_empty state = true ->
  Pairs.createAutopairInputHandler char state dispatch
  = if next_char_is state (JS.to_string char)
    then dispatching dispatch [ setSelection (sel_from state + 1) ]
    else if is_word (char_before state) || is_word (char_after state)
    then unhandled
    else dispatching dispatch (autoclose_edit state char).
Proof.
  intros Hq He.
  assert (Hoc : Pairs.isOpeningCharacter char = true
                /\ Pairs.isClosingCharacter char = true).
  { destruct char as [| | b | n | q | f]; try discriminate Hq.
    unfold isQuote in Hq. cbn [JS.strict_eq] in Hq.
    apply orb_true_iff in Hq.
    destruct Hq as [Hq | Hq]; apply String.eqb_eq in Hq; subst q;
      split; reflexivity. }
  destruct Hoc as [Ho Hc].
  pose proof (opening_is_matching _ Ho) as Hm.
  rewrite (createAutopairInputHandler_cursor _ _ _ Hm He).
  rewrite (skip_applies_eq _ _ Hm He), Ho. unfold skip_applies.
  rewrite He, Hc, (shouldAutoClose_quote _ _ He Hq). cbn [andb].
  destruct (next_char_is state (JS.to_string char)); [reflexivity |].
  now destruct (is_word (char_before state) || is_word (char_after state)).
Qed.

Lemma Pairs_quote_at_cursor_witness :
  Pairs.createAutopairInputHandler (JS.str "'")
    (Paragraph.state (Paragraph.mkDoc "don" 4 4)) true
  = unhandled
  /\ Pairs.createAutopairInputHandler (JS.str "'")
       (Paragraph.state (Paragraph.mkDoc "a = " 5 5)) true
     = (true, Some [ insertText "''" 5; setSelection 6 ]).
Proof.
  split.
  - apply (Pairs_quote_at_cursor (JS.str "'")
             (Paragraph.state (Paragraph.mkDoc "don" 4 4)) true);
      reflexivity.
  - apply (Pairs_quote_at_cursor (JS.str "'")
             (Paragraph.state (Paragraph.mkDoc "a = " 5 5)) true);
      reflexivity.
Defined.

Lemma Chars_pair_char_single (v : JS.value) :
  Chars.isAutopairChar v = true -> exists a, v = JS.str (char_string a).
Proof. apply matching_is_single_char. Qed.

(** In the handler of [src/lib/autopairs.ts] every pair character passes
    [isClosingChar], so at an empty cursor any pair character typed
    directly before a copy of itself is skipped over: an opening bracket
    typed before the same opening bracket moves the cursor and inserts
    nothing. *)
Theorem Chars_skips_over_any_pair_character
    (char : JS.value) (state : EditorState) (dispatch : bool) :
  Chars.isAutopairChar char = true ->
  sel_empty state = true ->
  next_char_is state (JS.to_string char) = true ->
  Chars.createAutopairCommandForChar char state dispatch
  = dispatching dispatch [ setSelection (sel_from state + 1) ].
Proof.
  intros Hm He Hnext. unfold Chars.createAutopairCommandForChar.
  rewrite Hm, He. cbn [negb].
  replace (Chars.isClosingChar char) with true by (symmetry; exact Hm).
  destruct (Chars_pair_char_single _ Hm) as (a & ->).
  cbn [JS.to_string] in *. rewrite shouldSkipClosing_char, He, Hnext.
  reflexivity.
Qed.

Lemma Chars_skips_over_any_pair_character_witness :
  Chars.createAutopairCommandForChar (JS.str "(")
    (Paragraph.state (Paragraph.mkDoc "f(x)" 2 2)) true
  = (true, Some [ setSelection 3 ]).
Proof.
  apply (Chars_skips_over_any_pair_character (JS.str "(")
           (Paragraph.state (Paragraph.mkDoc "f(x)" 2 2)) true);
    reflexivity.
Defined.

(** In the handler of [src/lib/autopairs.ts] a closing bracket also passes
    [isOpeningChar]: typed at an empty cursor that is not directly before
    the same bracket, it is answered by the insertion of the bracket
    followed by the text [undefined], the rendering of its missing closing
    match. *)
Theorem Chars_closing_bracket_inserts_undefined
    (char : JS.value) (state : EditorState) (dispatch : bool) :
  Pairs.isClosingCharacter char = true ->
  isQuote char = false ->
  sel_empty state = true ->
  next_char_is state (JS.to_string char) = false ->
  Chars.createAutopairCommandForChar char state dispatch
  = dispatching dispatch
      [ insertText (JS.to_string char ++ "undefined") (sel_from state);
        setSelection (sel_from state + 1) ].
Proof.
  intros Hc Hq He Hnext. unfold Chars.createAutopairCommandForChar.
  rewrite He.
  destruct (closing_bracket_cases _ Hc Hq) as [-> | [-> | [-> | ->]]];
    cbn [JS.to_string] in *;
    match goal with
    | |- context [shouldSkipClosing state (String ?a EmptyString)] =>
        pose proof (shouldSkipClosing_char state a) as Hs;
        unfold char_string in Hs; rewrite Hs, He, Hnext
    end; rewrite (bracket_autoclose_always _ _ Hq); reflexivity.
Qed.

Lemma Chars_closing_bracket_inserts_undefined_witness :
  Chars.createAutopairCommandForChar (JS.str ")")
    (Paragraph.state (Paragraph.mkDoc "f(x" 4 4)) true
  = (true, Some [ insertText ")undefined" 4; setSelection 5 ]).
Proof.
  apply (Chars_closing_bracket_inserts_undefined (JS.str ")")
           (Paragraph.state (Paragraph.mkDoc "f(x" 4 4)) true);
    reflexivity.
Defined.


(* ================================================================== *)
(** * Further properties: objects, configuration and dispatch tables *)
(* ================================================================== *)

Section StringKeyedObjects.
Context {V : Type}.
Implicit Types (o : list (string * V)) (k : string) (v : V).

Lemma get_set_any o k v k' :
  JS.get String.eqb (JS.set String.eqb o k v) k'
  = if String.eqb k k' then Some v else JS.get String.eqb o k'.
Proof.
  induction o as [| [k0 v0] o IH]; cbn [JS.set JS.get]; [reflexivity |].
  destruct (String.eqb_spec k0 k) as [-> | Hne]; cbn [JS.get].
  - now destruct (String.eqb k k').
  - rewrite IH.
    destruct (String.eqb_spec k0 k') as [-> | Hne'];
      destruct (String.eqb_spec k k') as [-> | Hne'']; congruence.
Qed.

Lemma get_notin o k :
  ~ In k (JS.keys o) -> JS.get String.eqb o k = None.
Proof.
  induction o as [| [k0 v0] o IH]; [reflexivity |].
  cbn [JS.keys map fst In JS.get]. intros H.
  destruct (String.eqb_spec k0 k) as [-> | Hne]; [tauto |].
  apply IH. unfold JS.keys. tauto.
Qed.

Lemma in_keys_set o k v k' :
  In k' (JS.keys (JS.set String.eqb o k v)) <-> In k' (JS.keys o) \/ k' = k.
Proof.
  induction o as [| [k0 v0] o IH]; cbn [JS.set JS.keys map fst In].
  - intuition congruence.
  - destruct (String.eqb_spec k0 k) as [-> | Hne];
      cbn [JS.keys map fst In].
    + intuition congruence.
    + unfold JS.keys in IH. rewrite IH. tauto.
Qed.

Lemma NoDup_keys_set o k v :
  NoDup (JS.keys o) -> NoDup (JS.keys (JS.set String.eqb o k v)).
Proof.
  induction o as [| [k0 v0] o IH]; cbn [JS.set JS.keys map fst].
  - intros _. constructor; [intros [] | constructor].
  - intros H. inversion H as [| x l Hnotin Hnodup]; subst.
    destruct (String.eqb_spec k0 k) as [-> | Hne]; cbn [JS.keys map fst].
    + now constructor.
    + constructor.
      * intros Hin. apply (in_keys_set o k v k0) in Hin.
        destruct Hin as [Hin | Heq]; [now apply Hnotin | congruence].
      * now apply IH.
Qed.

Lemma NoDup_keys_spread (a b : list (string * V)) :
  NoDup (JS.keys a) -> NoDup (JS.keys (JS.spread String.eqb a b)).
Proof.
  revert a. unfold JS.spread.
  induction b as [| [k v] b IH]; intros a Ha; [exact Ha |].
  cbn [fold_left fst snd]. apply IH. now apply NoDup_keys_set.
Qed.

Lemma get_spread_NoDup (a b : list (string * V)) k :
  NoDup (JS.keys b) ->
  JS.get String.eqb (JS.spread String.eqb a b) k
  = match JS.get String.eqb b k with
    | Some v => Some v
    | None => JS.get String.eqb a k
    end.
Proof.
  revert a. unfold JS.spread.
  induction b as [| [k0 v0] b IH]; intros a Hb; [reflexivity |].
  cbn [JS.keys map fst] in Hb.
  inversion Hb as [| x l Hnotin Hnodup]; subst.
  cbn [fold_left fst snd JS.get]. rewrite (IH _ Hnodup), get_set_any.
  destruct (String.eqb_spec k0 k) as [-> | Hne]; [| reflexivity].
  now rewrite (get_notin b k Hnotin).
Qed.

Lemma set_fresh o k v :
  ~ In k (JS.keys o) -> JS.set String.eqb o k v = (o ++ [(k, v)])%list.
Proof.
  induction o as [| [k0 v0] o IH]; [reflexivity |].
  cbn [JS.keys map fst In JS.set]. intros H.
  destruct (String.eqb_spec k0 k) as [-> | Hne]; [tauto |].
  cbn [app]. f_equal. apply IH. unfold JS.keys. tauto.
Qed.

Lemma unique_keys_NoDup o :
  JS.unique_keys String.eqb o = true -> NoDup (JS.keys o).
Proof.
  induction o as [| [k0 v0] o IH]; [constructor |].
  cbn [JS.unique_keys JS.keys map fst]. intros H.
  apply andb_true_iff in H. destruct H as [Hk Ho].
  apply negb_true_iff in Hk. constructor; [| now apply IH].
  intros Hin. assert (Ht : existsb (String.eqb k0) (JS.keys o) = true).
  { apply existsb_exists. exists k0. split; [exact Hin |].
    apply String.eqb_refl. }
  unfold JS.keys in Ht, Hk. congruence.
Qed.

Lemma get_fold_set (g : string -> V) (chars : list string) o k :
  JS.get String.eqb
    (fold_left (fun b c => JS.set String.eqb b c (g c)) chars o) k
  = if existsb (String.eqb k) chars then Some (g k)
    else JS.get String.eqb o k.
Proof.
  revert o. induction chars as [| c chars IH]; intros o; [reflexivity |].
  cbn [fold_left existsb]. rewrite IH, get_set_any.
  rewrite (String.eqb_sym k c).
  destruct (String.eqb_spec c k) as [-> | Hne]; cbn [orb].
  - now destruct (existsb (String.eqb k) chars).
  - reflexivity.
Qed.

Lemma NoDup_keys_fold_set (g : string -> V) (chars : list string) o :
  NoDup (JS.keys o) ->
  NoDup (JS.keys (fold_left (fun b c => JS.set String.eqb b c (g c)) chars o)).
Proof.
  revert o. induction chars as [| c chars IH]; intros o Ho; [exact Ho |].
  cbn [fold_left]. apply IH. now apply NoDup_keys_set.
Qed.

End StringKeyedObjects.

Lemma buildAutopairKeyBindings_from
    (mapping : list (string * (JS.value -> Command)))
    (record : list (string * Command)) :
  NoDup (JS.keys mapping) ->
  (forall k, In k (JS.keys mapping) -> ~ In k (JS.keys record)) ->
  fold_left
    (fun record entry =>
       JS.set String.eqb record (fst entry) (snd entry (JS.str (fst entry))))
    mapping record
  = (record ++ map bound_entry mapping)%list.
Proof.
  revert record. induction mapping as [| e mapping IH]; intros record Hm Hr.
  - cbn. now rewrite app_nil_r.
  - cbn [JS.keys map fst] in Hm.
    inversion Hm as [| x l Hnotin Hnodup]; subst.
    cbn [fold_left map]. rewrite set_fresh.
    2:{ apply Hr. now left. }
    rewrite IH; [now rewrite <- app_assoc | exact Hnodup |].
    intros k Hk Hin. unfold JS.keys in Hin. rewrite map_app in Hin.
    apply in_app_or in Hin. destruct Hin as [Hin | [<- | []]].
    + apply (Hr k); [now right | exact Hin].
    + now apply Hnotin.
Qed.

Lemma buildAutopairKeyBindings_NoDup
    (mapping : list (string * (JS.value -> Command))) :
  NoDup (JS.keys mapping) ->
  Chars.buildAutopairKeyBindings mapping = map bound_entry mapping.
Proof.
  intros Hm. unfold Chars.buildAutopairKeyBindings.
  now rewrite buildAutopairKeyBindings_from.
Qed.

Lemma get_bound_entries
    (mapping : list (string * (JS.value -> Command))) (key : string) :
  JS.get String.eqb (map bound_entry mapping) key
  = match JS.get String.eqb mapping key with
    | Some factory => Some (factory (JS.str key))
    | None => None
    end.
Proof.
  induction mapping as [| [k f] mapping IH]; [reflexivity |].
  cbn [map bound_entry fst snd JS.get].
  destruct (String.eqb_spec k key) as [-> | Hne]; [reflexivity | exact IH].
Qed.

(** [buildAutopairKeyBindings] maps an object entry by entry: the result
    has the keys of its argument in their order, each bound to the command
    the key's factory returns when called with that key; the empty object
    gives the empty object. *)
Theorem buildAutopairKeyBindings_entrywise
    (mapping : list (string * (JS.value -> Command))) :
  JS.unique_keys String.eqb mapping = true ->
  Chars.buildAutopairKeyBindings mapping = map bound_entry mapping
  /\ JS.keys (Chars.buildAutopairKeyBindings mapping) = JS.keys mapping
  /\ forall key,
       JS.get String.eqb (Chars.buildAutopairKeyBindings mapping) key
       = match JS.get String.eqb mapping key with
         | Some factory => Some (factory (JS.str key))
         | None => None
         end.
Proof.
  intros Hu. apply unique_keys_NoDup in Hu.
  rewrite (buildAutopairKeyBindings_NoDup _ Hu).
  split; [reflexivity |]. split.
  - unfold JS.keys. rewrite map_map. reflexivity.
  - intros key. apply get_bound_entries.
Qed.

Lemma buildAutopairKeyBindings_entrywise_witness :
  Chars.buildAutopairKeyBindings
    [ ("(", Chars.createAutopairCommandForChar);
      ("Backspace", fun _ => Chars.createBackspaceInputCommand) ]
  = [ ("(", Chars.createAutopairCommandForChar (JS.str "("));
      ("Backspace", Chars.createBackspaceInputCommand) ].
Proof.
  apply (buildAutopairKeyBindings_entrywise
           [ ("(", Chars.createAutopairCommandForChar);
             ("Backspace", fun _ => Chars.createBackspaceInputCommand) ]).
  reflexivity.
Defined.

(** The dispatch table of [packages/.../autopairs.ts], key by key:
    [Backspace] is bound to the paired-delete handler, every enabled
    character to the character handler made for that character, and no
    other key is bound. *)
Theorem Pairs_dispatch_table (options : AutopairsOptions) (key : string) :
  JS.get String.eqb (Pairs.buildKeyBindings options) key
  = if String.eqb key Pairs.BACKSPACE
    then Some Pairs.createBackspaceInputHandler
    else if existsb (String.eqb key) (Pairs.getEnabledAutopairChars options)
    then Some (Pairs.createAutopairInputHandler (JS.str key))
    else None.
Proof.
  unfold Pairs.buildKeyBindings.
  rewrite get_set_any, (String.eqb_sym key Pairs.BACKSPACE).
  destruct (String.eqb Pairs.BACKSPACE key); [reflexivity |].
  rewrite get_spread_NoDup.
  - rewrite (get_fold_set
               (fun c => Pairs.createAutopairInputHandler (JS.str c))).
    now destruct (existsb (String.eqb key)
                    (Pairs.getEnabledAutopairChars options)).
  - apply (NoDup_keys_fold_set
             (fun c => Pairs.createAutopairInputHandler (JS.str c))).
    constructor.
Qed.

(** The key bindings the [AutopairsPlugin] of [src/lib/autopairs.ts]
    registers, key by key: [Backspace] is bound to the paired-delete
    command, every character [resolveCharsToHandle] returns to the
    character command made for that character, and no other key is
    bound. *)
Theorem Chars_plugin_bindings (options : AutopairsOptions) (key : string) :
  JS.get String.eqb (Chars.AutopairsPlugin_bindings options) key
  = if String.eqb key "Backspace"
    then Some Chars.createBackspaceInputCommand
    else if existsb (String.eqb key) (Chars.resolveCharsToHandle options)
    then Some (Chars.createAutopairCommandForChar (JS.str key))
    else None.
Proof.
  unfold Chars.AutopairsPlugin_bindings.
  set (charBindings :=
         fold_left
           (fun mapping char =>
              JS.set String.eqb mapping char Chars.createAutopairCommandForChar)
           (Chars.resolveCharsToHandle options) []).
  assert (Hc : NoDup (JS.keys charBindings)).
  { apply (NoDup_keys_fold_set (fun _ => Chars.createAutopairCommandForChar)).
    constructor. }
  assert (Hkb : NoDup
                  (JS.keys
                     [ ("Backspace",
                        fun _ : JS.value => Chars.createBackspaceInputCommand) ])).
  { constructor; [intros [] | constructor]. }
  rewrite buildAutopairKeyBindings_NoDup.
  2:{ apply NoDup_keys_spread, NoDup_keys_spread. constructor. }
  rewrite get_bound_entries.
  rewrite (get_spread_NoDup _ _ key Hkb). cbn [JS.get].
  rewrite (String.eqb_sym key "Backspace").
  destruct (String.eqb "Backspace" key); [reflexivity |].
  rewrite (get_spread_NoDup _ _ key Hc). unfold charBindings.
  rewrite (get_fold_set (fun _ => Chars.createAutopairCommandForChar)).
  now destruct (existsb (String.eqb key) (Chars.resolveCharsToHandle options)).
Qed.

Lemma group_chars_inhabited (g : AutopairGroup) :
  exists c, In c (group_chars g).
Proof. destruct g; eexists; cbn; left; reflexivity. Qed.

Lemma resolved_false_iff (options : AutopairsOptions) (g : AutopairGroup) :
  resolved_flag options g = false <-> flag options g = Some false.
Proof.
  unfold resolved_flag. destruct (flag options g) as [[|] |];
    split; congruence.
Qed.

(** [getEnabledAutopairChars] returns no character exactly when the
    configuration sets each of the six groups to [false]: leaving a single
    group out keeps that group's characters. *)
Theorem no_enabled_chars_iff_all_false (options : AutopairsOptions) :
  JS.unique_keys AutopairGroup_eqb options = true ->
  (Pairs.getEnabledAutopairChars options = []
   <-> forall g, flag options g = Some false).
Proof.
  intros Hu. rewrite (getEnabledAutopairChars_eq _ Hu). split.
  - intros Hnil g. apply resolved_false_iff.
    destruct (resolved_flag options g) eqn:Hg; [| reflexivity].
    destruct (group_chars_inhabited g) as (c & Hc).
    assert (Hin : In c (List.concat
                          (map group_chars
                             (filter (resolved_flag options) default_order)))).
    { apply in_concat. exists (group_chars g). split; [| exact Hc].
      apply in_map, filter_In. split; [apply in_default_order | exact Hg]. }
    rewrite Hnil in Hin. destruct Hin.
  - intros Hall. unfold default_order. cbn [filter].
    now rewrite !(proj2 (resolved_false_iff options _) (Hall _)).
Qed.

Lemma no_enabled_chars_iff_all_false_witness :
  Pairs.getEnabledAutopairChars
    [ (AngleBrackets, false); (CurlyBrackets, false); (RoundBrackets, false);
      (SquareBrackets, false); (DoubleQuotes, false) ] <> [].
Proof.
  intros H.
  apply (no_enabled_chars_iff_all_false
           [ (AngleBrackets, false); (CurlyBrackets, false);
             (RoundBrackets, false); (SquareBrackets, false);
             (DoubleQuotes, false) ] eq_refl) with (g := SingleQuotes) in H.
  discriminate H.
Defined.

Lemma listed_chars_nil_iff (l : AutopairsOptions) :
  List.concat
    (map (fun entry => group_chars (fst entry))
       (filter (fun entry => negb (negb (snd entry))) l)) = []
  <-> forallb (fun entry => negb (snd entry)) l = true.
Proof.
  induction l as [| [g b] l IH]; [split; reflexivity |].
  cbn [filter forallb snd]. destruct b; cbn [negb andb].
  - cbn [map List.concat fst]. split; [| discriminate].
    destruct (group_chars_inhabited g) as (c & Hc).
    intros H. apply app_eq_nil in H. destruct H as [H _].
    rewrite H in Hc. destruct Hc.
  - exact IH.
Qed.

(** [resolveCharsToHandle] returns no character exactly when the
    configuration names at least one group and sets every group it names
    to [false]; so switching a single group off, and naming no other,
    switches all six off. *)
Theorem resolveCharsToHandle_nil_iff (options : AutopairsOptions) :
  Chars.resolveCharsToHandle options = []
  <-> options <> [] /\ forallb (fun entry => negb (snd entry)) options = true.
Proof.
  unfold Chars.resolveCharsToHandle.
  destruct options as [| e rest].
  - split; [discriminate | intros [H _]; congruence].
  - cbn [List.length Nat.eqb]. rewrite listed_chars_nil_iff.
    split; [intros H; split; [discriminate | exact H] | tauto].
Qed.

(** The result of [getEnabledAutopairChars] depends on the resolved flags
    alone: two configurations that resolve every group alike give the same
    list, in the same order, whatever the order of their keys and whether
    a flag is [true] by default or by being set. *)
Theorem enabled_chars_depend_on_flags_only
    (options1 options2 : AutopairsOptions) :
  JS.unique_keys AutopairGroup_eqb options1 = true ->
  JS.unique_keys AutopairGroup_eqb options2 = true ->
  same_resolved_flags options1 options2 = true ->
  Pairs.getEnabledAutopairChars options1
  = Pairs.getEnabledAutopairChars options2.
Proof.
  intros H1 H2 Hsame.
  rewrite (getEnabledAutopairChars_eq _ H1), (getEnabledAutopairChars_eq _ H2).
  f_equal. f_equal. apply filter_ext_in. intros g Hg.
  unfold same_resolved_flags in Hsame.
  rewrite forallb_forall in Hsame. specialize (Hsame g Hg).
  now apply Bool.eqb_prop.
Qed.

Lemma enabled_chars_depend_on_flags_only_witness :
  Pairs.getEnabledAutopairChars
    [ (DoubleQuotes, false); (AngleBrackets, true); (RoundBrackets, false) ]
  = Pairs.getEnabledAutopairChars
      [ (RoundBrackets, false); (DoubleQuotes, false) ].
Proof.
  apply (enabled_chars_depend_on_flags_only
           [ (DoubleQuotes, false); (AngleBrackets, true);
             (RoundBrackets, false) ]
           [ (RoundBrackets, false); (DoubleQuotes, false) ]);
    reflexivity.
Defined.

Ltac prove_NoDup :=
  repeat (constructor;
          [ cbn [In]; intros Hin;
            repeat (destruct Hin as [Hin | Hin]; [discriminate Hin |]);
            exact Hin | ]);
  constructor.

(** [getEnabledAutopairChars] lists no character twice, so the dispatch
    table is built with one write per character. *)
Theorem enabled_chars_NoDup (options : AutopairsOptions) :
  JS.unique_keys AutopairGroup_eqb options = true ->
  NoDup (Pairs.getEnabledAutopairChars options).
Proof.
  intros Hu. rewrite (getEnabledAutopairChars_eq _ Hu).
  unfold default_order. cbn [filter].
  destruct (resolved_flag options AngleBrackets),
    (resolved_flag options CurlyBrackets),
    (resolved_flag options RoundBrackets),
    (resolved_flag options SquareBrackets),
    (resolved_flag options DoubleQuotes),
    (resolved_flag options SingleQuotes);
    cbn; unfold dquote; prove_NoDup.
Qed.

Lemma enabled_chars_NoDup_witness :
  NoDup (Pairs.getEnabledAutopairChars [ (CurlyBrackets, false) ]).
Proof.
  apply (enabled_chars_NoDup [ (CurlyBrackets, false) ]). reflexivity.
Defined.

(* ================================================================== *)
(** * Further properties: [utils.ts] *)
(* ================================================================== *)

Lemma prefix_iff_append (p t : string) :
  String.prefix p t = true <-> exists rest, t = (p ++ rest)%string.
Proof.
  revert t. induction p as [| a p IH]; intros t.
  - split; [intros _; now exists t | intros _; now destruct t].
  - destruct t as [| b t]; cbn [String.prefix String.append].
    + split; [discriminate | intros (rest & H); discriminate H].
    + destruct (ascii_dec a b) as [-> | Hne].
      * rewrite IH. split; intros (rest & H); exists rest; congruence.
      * split; [discriminate | intros (rest & H); congruence].
Qed.

(** [shouldSkipClosing] holds exactly when the selection is an empty
    cursor and the node after it is a text node whose text starts with the
    typed string; it fails at the end of the content and before a node
    that is not text. *)
Theorem shouldSkipClosing_iff (state : EditorState) (char : string) :
  shouldSkipClosing state char = true
  <-> sel_empty state = true
      /\ exists rest,
           nodeAfter state = Some (TextNode (char ++ rest)%string).
Proof.
  unfold shouldSkipClosing. destruct (sel_empty state); cbn [negb].
  2:{ split; [discriminate | intros [H _]; discriminate H]. }
  destruct (nodeAfter state) as [[text |] |].
  - unfold JS.startsWith. rewrite prefix_iff_append. split.
    + intros (rest & ->). split; [reflexivity | now exists rest].
    + intros (_ & rest & [= ->]). now exists rest.
  - split; [discriminate | intros (_ & rest & H); discriminate H].
  - split; [discriminate | intros (_ & rest & H); discriminate H].
Qed.

(** [shouldAutoClose] denies in one situation only: a quote, typed at an
    empty cursor, with a word character directly before or after the
    cursor.  It permits every other character and every non-empty
    selection. *)
Theorem shouldAutoClose_denies_only_quotes_in_words
    (state : EditorState) (openChar : JS.value) :
  shouldAutoClose state openChar
  = negb (sel_empty state && isQuote openChar
          && (is_word (char_before state) || is_word (char_after state))).
Proof.
  destruct (sel_empty state) eqn:He.
  - destruct (isQuote openChar) eqn:Hq.
    + now rewrite (shouldAutoClose_quote _ _ He Hq).
    + now rewrite (bracket_autoclose_always _ _ Hq).
  - unfold shouldAutoClose. now rewrite He.
Qed.
